(** * apisix-seed: the storer package (etcd adapter and generic store)

    A shallow embedding of [internal/core/storer/etcd.go] and
    [internal/core/storer/store.go], followed by the properties of the
    backend adapter ([EtcdV3]) and of the synchronisation engine
    ([GenericStore]).

    Conventions of the embedding
    - Go [string] and [[]byte] are [string] (a sequence of bytes); the
      conversions [string(b)] and [[]byte(s)] are the identity.
    - [int64] counters of the etcd responses are [Z].
    - A Go [error] is its message; [fmt.Errorf] is string concatenation.
    - A method with a pointer receiver threads the receiver's state
      explicitly and returns the new state next to its results.
    - An index expression that Go checks at run time yields [Panic] when it
      is out of range.
    - Contexts, deadlines and the logging sink have no influence on the
      values computed and are left out. *)

From Stdlib Require Import ZArith.
From stdpp Require Import base option list gmap strings.

Open Scope string_scope.
Open Scope list_scope.

(** ** Go prelude *)

Definition error : Type := string.

(** The result of a call that returns [(A, error)] and may index a slice. *)
Inductive outcome (A : Type) : Type :=
| Ok (a : A)
| Err (e : error)
| Panic.
Arguments Ok {A} a.
Arguments Err {A} e.
Arguments Panic {A}.

(** [bytes.Equal] *)
Definition bytes_Equal (a b : string) : bool := String.eqb a b.

(** The double quote, for JSON payloads of the examples. *)
Definition dq : string := String (Ascii.ascii_of_nat 34) EmptyString.

(** ** The etcd client API used by the adapter (go.etcd.io/etcd/client/v3) *)

Module clientv3.

Record KeyValue : Type := { Key : string; Value : string }.

Record GetResponse : Type := { Count : Z; Kvs : list KeyValue }.

Record DeleteResponse : Type := { Deleted : Z }.

  (** [mvccpb.Event_EventType] is an [int32]. *)
Definition EventTypePut : Z := 0.
Definition EventTypeDelete : Z := 1.

Record Event : Type := { Type_ : Z; Kv : KeyValue }.

Record WatchResponse : Type := { Canceled : bool; Events : list Event }.

  (** The calls the adapter makes on [*clientv3.Client]; the boolean of
      [Get] and [Delete] is the option [clientv3.WithPrefix()].  [Watch]
      (always with [WithPrefix]) yields the batches the watch channel
      delivers until it is closed. *)
Record Client (S : Type) : Type := {
    Get : S -> string -> bool -> S * (error + GetResponse);
    Put : S -> string -> string -> S * option error;
    Delete : S -> string -> bool -> S * (error + DeleteResponse);
    Watch : S -> string -> list WatchResponse;
    Close : S -> S * option error
  }.
Arguments Get {S} _ _ _ _.
Arguments Put {S} _ _ _ _.
Arguments Delete {S} _ _ _ _.
Arguments Watch {S} _ _ _.
Arguments Close {S} _ _.

End clientv3.

(** ** Package utils *)

Module utils.

  (** Modelled from the spec: [utils.Message] is not under src; the spec
      gives it as an ordered sequence of (path, value) pairs, and store.go
      reads the fields [Key] and [Value] of its elements.  [Add] appends. *)
Record Entry : Type := { Key : string; Value : string }.

Definition Message : Type := list Entry.

Definition Add (m : Message) (key value : string) : Message :=
    m ++ [ {| Key := key; Value := value |} ].

End utils.

(** ** Change events *)

Module event.

  (** Modelled from the spec: [StoreEvent], [NewStoreEvent] and
      [StoreEvent.Add] are not under src.  A change event carries a
      cancellation flag and an ordered sequence of (operation, path, value)
      items; [Add] accumulates an item and refuses a malformed one with an
      error, leaving the event as it was.  What makes an item malformed is
      the parameter [validate] ([None] accepts). *)
Record Item : Type := { Op : string; Key : string; Value : string }.

Record StoreEvent : Type := { Canceled : bool; Events : list Item }.

Definition NewStoreEvent (canceled : bool) : StoreEvent :=
    {| Canceled := canceled; Events := [] |}.

Definition Add (validate : string -> string -> string -> option error)
      (e : StoreEvent) (typ key value : string) : StoreEvent * option error :=
    match validate typ key value with
    | Some err => (e, Some err)
    | None =>
        ({| Canceled := Canceled e;
            Events := Events e ++ [ {| Op := typ; Key := key; Value := value |} ] |},
         None)
    end.

End event.

(** ** etcd.go *)

Module EtcdV3.

Definition DirPlaceholder : string := "init_dir".

Section Adapter.
Context {S : Type} (client : clientv3.Client S).

    (** [utils.EventAdd], [utils.EventDelete] and the validation done by
        [StoreEvent.Add] are not under src. *)
Variables (EventAdd EventDelete : string).
Variable validate : string -> string -> string -> option error.

Definition Get (s : S) (key : string) : S * outcome string :=
      let '(s', r) := clientv3.Get client s key false in
      match r with
      | inl err => (s', Err ("etcd get key[" +:+ key +:+ "] failed: " +:+ err))
      | inr resp =>
          if (clientv3.Count resp =? 0)%Z
          then (s', Err ("etcd get key[" +:+ key +:+ "] is not found"))
          else
            match clientv3.Kvs resp !! 0%nat with
            | Some kv => (s', Ok (clientv3.Value kv))
            | None => (s', Panic)
            end
      end.

Definition List (s : S) (prefix : string) : S * outcome utils.Message :=
      let '(s', r) := clientv3.Get client s prefix true in
      match r with
      | inl err => (s', Err ("etcd list prefix[" +:+ prefix +:+ "] failed: " +:+ err))
      | inr resp =>
          if (clientv3.Count resp =? 0)%Z
          then (s', Err ("etcd list prefix[" +:+ prefix +:+ "] is not found"))
          else
            match clientv3.Kvs resp !! 0%nat with
            | None => (s', Panic)
            | Some kv0 =>
                let kvs :=
                  if bytes_Equal (clientv3.Value kv0) DirPlaceholder
                  then drop 1 (clientv3.Kvs resp)
                  else clientv3.Kvs resp in
                (s', Ok (fold_left
                           (fun ret kv =>
                              utils.Add ret (clientv3.Key kv) (clientv3.Value kv))
                           kvs []))
            end
      end.

Definition Create (s : S) (key value : string) : S * option error :=
      let '(s', r) := clientv3.Put client s key value in
      match r with
      | Some err => (s', Some ("etcd put key[" +:+ key +:+ "] failed: " +:+ err))
      | None => (s', None)
      end.

Definition Update (s : S) (key value : string) : S * option error :=
      let '(s', r) := clientv3.Put client s key value in
      match r with
      | Some err => (s', Some ("etcd update key[" +:+ key +:+ "] failed: " +:+ err))
      | None => (s', None)
      end.

Definition Delete (s : S) (key : string) : S * option error :=
      let '(s', r) := clientv3.Delete client s key false in
      match r with
      | inl err => (s', Some ("etcd delete key[" +:+ key +:+ "] failed: " +:+ err))
      | inr resp =>
          if (clientv3.Deleted resp =? 0)%Z
          then (s', Some ("etcd delete key[" +:+ key +:+ "] is not found"))
          else (s', None)
      end.

Definition DeletePrefix (s : S) (prefix : string) : S * option error :=
      let '(s', r) := clientv3.Delete client s prefix true in
      match r with
      | inl err =>
          (s', Some ("etcd delete prefix[" +:+ prefix +:+ "] failed: " +:+ err))
      | inr resp =>
          if (clientv3.Deleted resp =? 0)%Z
          then (s', Some ("etcd delete prefix[" +:+ prefix +:+ "] is not found"))
          else (s', None)
      end.

    (** The body of the inner loop of [Watch]: one notification [ev] folded
        into the event under construction. *)
Definition watch_item (storeEvent : event.StoreEvent) (ev : clientv3.Event)
      : event.StoreEvent :=
      if bytes_Equal (clientv3.Value (clientv3.Kv ev)) DirPlaceholder
      then storeEvent
      else
        let key := clientv3.Key (clientv3.Kv ev) in
        let value := clientv3.Value (clientv3.Kv ev) in
        let typ :=
          if (clientv3.Type_ ev =? clientv3.EventTypePut)%Z then EventAdd
          else if (clientv3.Type_ ev =? clientv3.EventTypeDelete)%Z then EventDelete
          else "" in
        fst (event.Add validate storeEvent typ key value).

    (** The body of the outer loop: the event sent for one batch. *)
Definition watch_batch (batch : clientv3.WatchResponse) : event.StoreEvent :=
      fold_left watch_item (clientv3.Events batch)
                (event.NewStoreEvent (clientv3.Canceled batch)).

    (** [Watch]: the sequence of events sent on the returned channel before
        it is closed, one per batch and in order. *)
Definition Watch (s : S) (key : string) : list event.StoreEvent :=
      map watch_batch (clientv3.Watch client s key).

Definition Close (s : S) : S * option error := clientv3.Close client s.

End Adapter.

End EtcdV3.

(** ** A reference etcd server behind the client

    The key space is a list of key-value pairs kept in ascending key order
    (the order in which etcd returns a range).  [net] scripts the transport:
    its head decides the coming call, [Some e] being a transport or timeout
    failure [e]; [feed] holds the notification batches a watch will see. *)

Module kvserver.

Record state : Type := {
    data : list clientv3.KeyValue;
    net : list (option error);
    feed : list clientv3.WatchResponse
  }.

Definition failure (s : state) : option error :=
    match net s with
    | Some e :: _ => Some e
    | _ => None
    end.

Definition advance (s : state) (d : list clientv3.KeyValue) : state :=
    {| data := d; net := tail (net s); feed := feed s |}.

Fixpoint put (k v : string) (d : list clientv3.KeyValue) : list clientv3.KeyValue :=
    match d with
    | [] => [ {| clientv3.Key := k; clientv3.Value := v |} ]
    | x :: d' =>
        match String.compare k (clientv3.Key x) with
        | Eq => {| clientv3.Key := k; clientv3.Value := v |} :: d'
        | Lt => {| clientv3.Key := k; clientv3.Value := v |} :: x :: d'
        | Gt => x :: put k v d'
        end
    end.

Definition selects (withPrefix : bool) (k : string) (x : clientv3.KeyValue) : bool :=
    if withPrefix then String.prefix k (clientv3.Key x)
    else String.eqb k (clientv3.Key x).

Definition range (withPrefix : bool) (k : string) (d : list clientv3.KeyValue)
    : list clientv3.KeyValue :=
    List.filter (selects withPrefix k) d.

Definition erase (withPrefix : bool) (k : string) (d : list clientv3.KeyValue)
    : list clientv3.KeyValue :=
    List.filter (fun x => negb (selects withPrefix k x)) d.

Definition Get (s : state) (k : string) (withPrefix : bool)
    : state * (error + clientv3.GetResponse) :=
    match failure s with
    | Some e => (advance s (data s), inl e)
    | None =>
        let kvs := range withPrefix k (data s) in
        (advance s (data s),
         inr {| clientv3.Count := Z.of_nat (length kvs); clientv3.Kvs := kvs |})
    end.

Definition Put (s : state) (k v : string) : state * option error :=
    match failure s with
    | Some e => (advance s (data s), Some e)
    | None => (advance s (put k v (data s)), None)
    end.

Definition Delete (s : state) (k : string) (withPrefix : bool)
    : state * (error + clientv3.DeleteResponse) :=
    match failure s with
    | Some e => (advance s (data s), inl e)
    | None =>
        (advance s (erase withPrefix k (data s)),
         inr {| clientv3.Deleted :=
                  Z.of_nat (length (range withPrefix k (data s))) |})
    end.

Definition Watch (s : state) (k : string) : list clientv3.WatchResponse :=
    map (fun b =>
           {| clientv3.Canceled := clientv3.Canceled b;
              clientv3.Events :=
                List.filter (fun ev => String.prefix k (clientv3.Key (clientv3.Kv ev)))
                            (clientv3.Events b) |})
        (feed s).

Definition Close (s : state) : state * option error := (s, None).

Definition client : clientv3.Client state :=
    {| clientv3.Get := Get; clientv3.Put := Put; clientv3.Delete := Delete;
       clientv3.Watch := Watch; clientv3.Close := Close |}.

  (** The writes an adapter can issue, and their replay on a server. *)
Inductive write : Type :=
  | WCreate (key value : string)
  | WUpdate (key value : string)
  | WDelete (key : string)
  | WDeletePrefix (prefix : string).

Definition apply (s : state) (w : write) : state :=
    match w with
    | WCreate k v => fst (EtcdV3.Create client s k v)
    | WUpdate k v => fst (EtcdV3.Update client s k v)
    | WDelete k => fst (EtcdV3.Delete client s k)
    | WDeletePrefix p => fst (EtcdV3.DeletePrefix client s p)
    end.

Definition replay (hist : list write) (s : state) : state :=
    fold_left apply hist s.

  (** The key written by [w], if any. *)
Definition written (w : write) : option string :=
    match w with
    | WCreate k _ | WUpdate k _ => Some k
    | _ => None
    end.

  (** No write of [hist] puts a key selected by [k]. *)
Definition never_written (withPrefix : bool) (k : string) (hist : list write) : Prop :=
    Forall (fun w =>
              match written w with
              | Some k' =>
                  (if withPrefix then String.prefix k k' else String.eqb k k') = false
              | None => True
              end) hist.

End kvserver.

(** ** Package entity *)

Module entity.

  (** Modelled from the spec: package entity is not under src.  A node is
      an endpoint descriptor (address, port and weight); the base
      information holds the identifier read by store.go ([ID]) and the
      bookkeeping times.  A domain object is type-erased: which of the
      interfaces [BaseInfoSetter], [NodesSetter] and [Aller] its dynamic type
      implements is visible in [Info] and [Nodes] being present and in
      [IsAller]; [Fields] stands for the rest of the payload. *)
Record Node : Type := { Host : string; Port : Z; Weight : Z }.

Record BaseInfo : Type := { ID : string; CreateTime : Z; UpdateTime : Z }.

Record Object : Type := {
    Fields : string;
    Info : option BaseInfo;
    Nodes : option (list Node);
    IsAller : bool
  }.

  (** [SetNodes] of [NodesSetter]: the node list is replaced. *)
Definition SetNodes (o : Object) (nodes : list Node) : Object :=
    {| Fields := Fields o; Info := Info o; Nodes := Some nodes; IsAller := IsAller o |}.

  (** Writing through the pointer returned by [GetBaseInfo]. *)
Definition with_info (o : Object) (info : BaseInfo) : Object :=
    {| Fields := Fields o; Info := Some info; Nodes := Nodes o; IsAller := IsAller o |}.

Definition with_ID (info : BaseInfo) (id : string) : BaseInfo :=
    {| ID := id; CreateTime := CreateTime info; UpdateTime := UpdateTime info |}.

  (** The encoders and decoders ([entity.Marshal], [json.Marshal],
      [entity.Unmarshal], [json.Unmarshal]) and the bookkeeping hook
      [BaseInfo.Updating], handed to the store as a bundle.  A decoder fills
      the zero value it is given. *)
Record Codec : Type := {
    Marshal : Object -> error + string;
    json_Marshal : Object -> error + string;
    Unmarshal : string -> Object -> error + Object;
    json_Unmarshal : string -> Object -> error + Object;
    Updating : BaseInfo -> BaseInfo -> BaseInfo
  }.

End entity.

(** ** Key paths *)

(** [strings.Split(s, sep)] for a one-byte separator. *)
Fixpoint Split (sep : Ascii.ascii) (s : string) : list string :=
  match s with
  | EmptyString => [ "" ]
  | String a s' =>
      if Ascii.eqb a sep then "" :: Split sep s'
      else
        match Split sep s' with
        | seg :: rest => String a seg :: rest
        | [] => [ String a "" ]
        end
  end.

Fixpoint strip_prefix (prefix s : string) : option string :=
  match prefix, s with
  | EmptyString, _ => Some s
  | String a p, String b s' => if Ascii.eqb a b then strip_prefix p s' else None
  | String _ _, EmptyString => None
  end.

(** [strings.TrimPrefix] *)
Definition TrimPrefix (s prefix : string) : string :=
  default s (strip_prefix prefix s).

Definition slash : Ascii.ascii := Ascii.ascii_of_nat 47.

(** The last path segment of [path]. *)
Definition last_segment (path : string) : string :=
  List.last (Split slash path) "".

(** The meaningful (non-empty) segments of [s]. *)
Definition segments (s : string) : list string :=
  List.filter (fun seg => negb (String.eqb seg "")) (Split slash s).

(** Modelled from the spec: [FromatKey] is not under src.  It strips the
    configured prefix from a path of the form
    [<prefix>/<resourceType>/<identifier...>] and returns the last path
    segment as the identifier candidate; the identifier is empty when the
    path has fewer than two meaningful segments after the prefix.  The spec
    only names the second component (trimmedPrefix); it is taken to be the
    stripped prefix, and the store reads the identifier alone. *)
Definition FromatKey (key prefix : string) : string * string * string :=
  match segments (TrimPrefix key prefix) with
  | resourceType :: _ :: _ => (resourceType, prefix, last_segment key)
  | _ => ("", "", "")
  end.

(** ** sync.Map *)

Module syncmap.
Section Ops.
Context {V : Type}.

Definition Load (m : gmap string V) (key : string) : option V * bool :=
      match m !! key with
      | Some v => (Some v, true)
      | None => (None, false)
      end.

Definition Store (m : gmap string V) (key : string) (value : V) : gmap string V :=
      <[key := value]> m.

Definition LoadOrStore (m : gmap string V) (key : string) (value : V)
      : gmap string V * (V * bool) :=
      match m !! key with
      | Some actual => (m, (actual, true))
      | None => (<[key := value]> m, (value, false))
      end.

Definition LoadAndDelete (m : gmap string V) (key : string)
      : gmap string V * (option V * bool) :=
      match m !! key with
      | Some v => (delete key m, (Some v, true))
      | None => (m, (None, false))
      end.
End Ops.
End syncmap.

(** ** store.go *)

Module GenericStore.

  (** An object pointer: an address in the store's heap of domain objects. *)
Abbreviation Ptr := nat (only parsing).

  (** [storer.Interface], over the state [S] of the implementation.  [List]
      is an [outcome] since the etcd adapter indexes a slice. *)
Module Interface.
Record t (S : Type) : Type := {
      List : S -> string -> S * outcome utils.Message;
      Update : S -> string -> string -> S * option error;
      Watch : S -> string -> list event.StoreEvent
    }.
Arguments List {S} _ _ _.
Arguments Update {S} _ _ _ _.
Arguments Watch {S} _ _ _.
End Interface.

  (** [ObjType] is given by the zero value [reflect.New] allocates. *)
Record GenericStoreOption : Type := {
    BasePath : string;
    Prefix : string;
    ObjType : entity.Object
  }.

  (** The calls made on the backend, in order (a ghost field). *)
Inductive call : Type :=
  | CallList (prefix : string)
  | CallUpdate (key value : string)
  | CallWatch (key : string).

Record t (S : Type) : Type := {
    Typ : string;
    Stg : S;
    calls : list call;
    heap : list entity.Object;
    cache : gmap string Ptr;
    opt : GenericStoreOption
  }.
Arguments Typ {S} _.
Arguments Stg {S} _.
Arguments calls {S} _.
Arguments heap {S} _.
Arguments cache {S} _.
Arguments opt {S} _.

Definition nl : string := String (Ascii.ascii_of_nat 10) EmptyString.
Definition tab : string := String (Ascii.ascii_of_nat 9) EmptyString.

Section Store.
Context {S : Type} (stg : Interface.t S) (codec : entity.Codec).

Definition set_cache (s : t S) (m : gmap string Ptr) : t S :=
      {| Typ := Typ s; Stg := Stg s; calls := calls s; heap := heap s;
         cache := m; opt := opt s |}.

Definition set_heap (s : t S) (h : list entity.Object) : t S :=
      {| Typ := Typ s; Stg := Stg s; calls := calls s; heap := h;
         cache := cache s; opt := opt s |}.

    (** The backend state after a call, with the call recorded. *)
Definition called (s : t S) (c : call) (stg' : S) : t S :=
      {| Typ := Typ s; Stg := stg'; calls := calls s ++ [c]; heap := heap s;
         cache := cache s; opt := opt s |}.

Definition Store (s : t S) (key : string) (objPtr : Ptr) : t S * (Ptr * bool) :=
      let '(m, (oldObj, ok)) := syncmap.LoadOrStore (cache s) key objPtr in
      let m' := if ok then syncmap.Store m key objPtr else m in
      (set_cache s m', (oldObj, ok)).

Definition Delete (s : t S) (key : string) : t S * (option Ptr * bool) :=
      let '(m, r) := syncmap.LoadAndDelete (cache s) key in
      (set_cache s m, r).

    (** The decoder chosen for an object: [entity.Unmarshal] for an [Aller],
        [json.Unmarshal] otherwise; likewise for the encoder. *)
Definition decode (str : string) (ret : entity.Object) : error + entity.Object :=
      if entity.IsAller ret then entity.Unmarshal codec str ret
      else entity.json_Unmarshal codec str ret.

Definition encode (o : entity.Object) : error + string :=
      if entity.IsAller o then entity.Marshal codec o
      else entity.json_Marshal codec o.

    (** The identifier backfill at the end of [StringToObjPtr]. *)
Definition backfill (prefix key : string) (ret : entity.Object) : entity.Object :=
      match entity.Info ret with
      | Some info =>
          if String.eqb (entity.ID info) ""
          then
            let '(_, _, id) := FromatKey key prefix in
            if negb (String.eqb id "")
            then entity.with_info ret (entity.with_ID info id)
            else ret
          else ret
      | None => ret
      end.

    (** The object lives in the heap from the moment its pointer is
        returned; an object whose decoding failed is unreachable. *)
Definition StringToObjPtr (s : t S) (str key : string) : t S * outcome Ptr :=
      match decode str (ObjType (opt s)) with
      | inl err =>
          (s, Err ("unmarshal failed" +:+ nl +:+ tab +:+ "Related Key:" +:+ tab +:+ tab
                   +:+ key +:+ nl +:+ tab +:+ "Error Description:" +:+ tab +:+ err))
      | inr ret =>
          (set_heap s (heap s ++ [ backfill (Prefix (opt s)) key ret ]),
           Ok (length (heap s)))
      end.

    (** [filter == nil || filter(objPtr)]; the filter reads the object. *)
Definition accepts (filter : option (entity.Object -> bool)) (s : t S) (objPtr : Ptr)
      : bool :=
      match filter with
      | None => true
      | Some f =>
          match heap s !! objPtr with
          | Some o => f o
          | None => false
          end
      end.

    (** The loop of [List] over the entries not yet visited. *)
Fixpoint List_loop (filter : option (entity.Object -> bool)) (ret : utils.Message)
        (s : t S) (objPtrs : list Ptr) : t S * outcome (list Ptr) :=
      match ret with
      | [] => (s, Ok objPtrs)
      | e :: ret' =>
          match StringToObjPtr s (utils.Value e) (utils.Key e) with
          | (s1, Ok objPtr) =>
              if accepts filter s1 objPtr
              then List_loop filter ret' (fst (Store s1 (utils.Key e) objPtr))
                             (objPtrs ++ [ objPtr ])
              else List_loop filter ret' s1 objPtrs
          | (s1, Err err) => (s1, Err err)
          | (s1, Panic) => (s1, Panic)
          end
      end.

Definition List (s : t S) (filter : option (entity.Object -> bool))
      : t S * outcome (list Ptr) :=
      let '(stg', r) := Interface.List stg (Stg s) (BasePath (opt s)) in
      let s0 := called s (CallList (BasePath (opt s))) stg' in
      match r with
      | Err err => (s0, Err err)
      | Panic => (s0, Panic)
      | Ok ret => List_loop filter ret s0 []
      end.

(** The cancel function kept for [Unwatch] has no counterpart here: the
        events are those delivered until the channel is closed. *)
Definition Watch (s : t S) : t S * list event.StoreEvent :=
      (called s (CallWatch (BasePath (opt s))) (Stg s),
       Interface.Watch stg (Stg s) (BasePath (opt s))).

Definition UpdateNodes (s : t S) (key : string) (nodes : list entity.Node)
      : t S * option error :=
      if String.eqb key "" then (s, Some "key is required")
      else
        match fst (syncmap.Load (cache s) key) with
        | None => (s, Some ("key: " +:+ key +:+ " is not found"))
        | Some p =>
            match heap s !! p with
            | Some storedObj =>
                match entity.Nodes storedObj with
                | Some _ =>
                    let o1 := entity.SetNodes storedObj nodes in
                    let o2 :=
                      match entity.Info o1 with
                      | Some info =>
                          entity.with_info o1 (entity.Updating codec info info)
                      | None => o1
                      end in
                    let s1 := set_heap s (<[p := o2]> (heap s)) in
                    match encode o2 with
                    | inl err => (s1, Some ("marshal failed: " +:+ err))
                    | inr bs =>
                        let '(stg', r) := Interface.Update stg (Stg s1) key bs in
                        (called s1 (CallUpdate key bs) stg', r)
                    end
                | None => (s, Some "object can't set nodes")
                end
            | None => (s, Some "object can't set nodes")
            end
        end.

Definition BasePath_ (s : t S) : string := BasePath (opt s).

End Store.

End GenericStore.

(** The etcd adapter as a backend of the generic store. *)
Definition etcd_backend {S : Type} (client : clientv3.Client S)
    (EventAdd EventDelete : string)
    (validate : string -> string -> string -> option error)
  : GenericStore.Interface.t S :=
  {| GenericStore.Interface.List := EtcdV3.List client;
     GenericStore.Interface.Update := EtcdV3.Update client;
     GenericStore.Interface.Watch := EtcdV3.Watch client EventAdd EventDelete validate |}.

(** ** Fixtures of the examples *)

Module fixture.

  (** An item is refused when its operation is empty. *)
Definition validate (typ key value : string) : option error :=
    if String.eqb typ "" then Some "unknown event type" else None.

Definition kv (k v : string) : clientv3.KeyValue :=
    {| clientv3.Key := k; clientv3.Value := v |}.

Definition entry (k v : string) : utils.Entry :=
    {| utils.Key := k; utils.Value := v |}.

Definition server (d : list clientv3.KeyValue) : kvserver.state :=
    {| kvserver.data := d; kvserver.net := []; kvserver.feed := [] |}.

  (** A server whose watchers will see the batches [feed]. *)
Definition feeding (feed : list clientv3.WatchResponse) : kvserver.state :=
  {| kvserver.data := []; kvserver.net := []; kvserver.feed := feed |}.

Definition put_event (k v : string) : clientv3.Event :=
  {| clientv3.Type_ := clientv3.EventTypePut; clientv3.Kv := kv k v |}.

(** [{"id":"<id>"}] *)
Definition json_id (id : string) : string :=
    "{" +:+ dq +:+ "id" +:+ dq +:+ ":" +:+ dq +:+ id +:+ dq +:+ "}".

  (** A route-like shape with every capability, and a bare shape with none. *)
Definition route : entity.Object :=
    {| entity.Fields := "";
       entity.Info := Some {| entity.ID := ""; entity.CreateTime := 0; entity.UpdateTime := 0 |};
       entity.Nodes := Some [];
       entity.IsAller := false |}.

Definition bare : entity.Object :=
    {| entity.Fields := ""; entity.Info := None; entity.Nodes := None;
       entity.IsAller := false |}.

Definition with_Fields (o : entity.Object) (f : string) : entity.Object :=
    {| entity.Fields := f; entity.Info := entity.Info o; entity.Nodes := entity.Nodes o;
       entity.IsAller := entity.IsAller o |}.

  (** A codec that keeps the payload text: the empty text does not decode,
      and an object whose payload is [NaN] does not encode. *)
Definition unmarshal (str : string) (ret : entity.Object) : error + entity.Object :=
    if String.eqb str "" then inl "unexpected end of JSON input"
    else inr (with_Fields ret str).

Definition marshal (o : entity.Object) : error + string :=
    if String.eqb (entity.Fields o) "NaN" then inl "json: unsupported value: NaN"
    else inr (entity.Fields o).

Definition updating (info stored : entity.BaseInfo) : entity.BaseInfo :=
    {| entity.ID := entity.ID info;
       entity.CreateTime := entity.CreateTime stored;
       entity.UpdateTime := 1 |}.

Definition codec : entity.Codec :=
    {| entity.Marshal := marshal; entity.json_Marshal := marshal;
       entity.Unmarshal := unmarshal; entity.json_Unmarshal := unmarshal;
       entity.Updating := updating |}.

Definition backend : GenericStore.Interface.t kvserver.state :=
    etcd_backend kvserver.client "add" "delete" validate.

Definition store (d : list clientv3.KeyValue) (shape : entity.Object)
    : GenericStore.t kvserver.state :=
    {| GenericStore.Typ := "routes";
       GenericStore.Stg := server d;
       GenericStore.calls := [];
       GenericStore.heap := [];
       GenericStore.cache := ∅;
       GenericStore.opt :=
         {| GenericStore.BasePath := "/apisix/routes";
            GenericStore.Prefix := "/apisix";
            GenericStore.ObjType := shape |} |}.

(** A store caching the object [o] at [/apisix/routes/1], over a server
    whose transport follows the script [net]. *)
Definition caching (o : entity.Object) (net : list (option error))
  : GenericStore.t kvserver.state :=
  {| GenericStore.Typ := "routes";
     GenericStore.Stg := {| kvserver.data := []; kvserver.net := net; kvserver.feed := [] |};
     GenericStore.calls := [];
     GenericStore.heap := [ o ];
     GenericStore.cache := {[ "/apisix/routes/1" := 0%nat ]};
     GenericStore.opt :=
       {| GenericStore.BasePath := "/apisix/routes";
          GenericStore.Prefix := "/apisix";
          GenericStore.ObjType := route |} |}.

Definition node : entity.Node :=
  {| entity.Host := "10.0.0.1"; entity.Port := 80; entity.Weight := 1 |}.

End fixture.

(** ** Auxiliary notions of the statements *)

(** A key-value pair of a response as an entry of a message. *)
Definition to_entry (kv : clientv3.KeyValue) : utils.Entry :=
  {| utils.Key := clientv3.Key kv; utils.Value := clientv3.Value kv |}.

(** The object [UpdateNodes] leaves behind the pointer: the node list
    replaced, then the bookkeeping hook run on the base information when the
    object has one. *)
Definition updated (codec : entity.Codec) (o : entity.Object) (nodes : list entity.Node)
  : entity.Object :=
  match entity.Info (entity.SetNodes o nodes) with
  | Some info =>
      entity.with_info (entity.SetNodes o nodes) (entity.Updating codec info info)
  | None => entity.SetNodes o nodes
  end.

(** The object an entry of a listing decodes to under the options [o]. *)
Definition decoded (codec : entity.Codec) (o : GenericStore.GenericStoreOption)
    (e : utils.Entry) : error + entity.Object :=
  match GenericStore.decode codec (utils.Value e) (GenericStore.ObjType o) with
  | inl err => inl err
  | inr ret => inr (GenericStore.backfill (GenericStore.Prefix o) (utils.Key e) ret)
  end.

Definition decodes (codec : entity.Codec) (o : GenericStore.GenericStoreOption)
    (e : utils.Entry) : bool :=
  match decoded codec o e with inr _ => true | inl _ => false end.

(** The decoded object of an entry that decodes. *)
Definition object_of (codec : entity.Codec) (o : GenericStore.GenericStoreOption)
    (e : utils.Entry) : entity.Object :=
  match decoded codec o e with
  | inr obj => obj
  | inl _ => GenericStore.ObjType o
  end.

(** [filter == nil || filter(obj)] on the object itself. *)
Definition passes (filter : option (entity.Object -> bool)) (o : entity.Object) : bool :=
  match filter with
  | None => true
  | Some f => f o
  end.

(** The entries of a listing whose objects the filter accepts. *)
Definition accepted (codec : entity.Codec) (o : GenericStore.GenericStoreOption)
    (filter : option (entity.Object -> bool)) (ret : utils.Message) : utils.Message :=
  List.filter (fun e => passes filter (object_of codec o e)) ret.

(** Storing pointers under keys, first pair first. *)
Definition store_all (m : gmap string GenericStore.Ptr)
    (kps : list (string * GenericStore.Ptr)) : gmap string GenericStore.Ptr :=
  fold_left (fun m kp => <[kp.1 := kp.2]> m) kps m.

(** The error of a failed decoding of the value at [key]. *)
Definition decode_error (key err : string) : error :=
  "unmarshal failed" +:+ GenericStore.nl +:+ GenericStore.tab +:+ "Related Key:"
  +:+ GenericStore.tab +:+ GenericStore.tab +:+ key +:+ GenericStore.nl
  +:+ GenericStore.tab +:+ "Error Description:" +:+ GenericStore.tab +:+ err.

(** No item of the event carries the directory placeholder. *)
Definition clean (e : event.StoreEvent) : Prop :=
  Forall (fun item => event.Value item <> EtcdV3.DirPlaceholder) (event.Events e).

(** ** Construction of the adapter (etcd.go, NewEtcd and init) *)

Module conf.

(** Package conf is not under src; these are the fields [NewEtcd] reads.
    [TLS_] is a pointer and may be nil. *)
Record TLS : Type := { CertFile : string; KeyFile : string; Verify : bool }.

Record Etcd : Type := {
  Host : list string;
  Timeout : Z;
  User : string;
  Password : string;
  TLS_ : option TLS
}.

End conf.

Module transport.

Record TLSInfo : Type := { CertFile : string; KeyFile : string }.

End transport.

Module connect.

(** [time.Second], a [time.Duration] counting nanoseconds. *)
Definition Second : Z := 1000000000.

Section New.
Context {S TLSConfig : Type}.

(** [tlsInfo.ClientConfig()] and [clientv3.New], both of other packages. *)
Variable ClientConfig : transport.TLSInfo -> error + TLSConfig.
Variable New : forall (endpoints : list string) (dialTimeout keepAlive : Z)
                      (username password : string) (tls : option TLSConfig),
    error + S.

(** [clientv3.Config], with the fields [NewEtcd] sets. *)
Record Config : Type := {
  Endpoints : list string;
  DialTimeout : Z;
  DialKeepAliveTimeout : Z;
  Username : string;
  Password : string;
  TLS : option TLSConfig
}.

(** The struct [EtcdV3]. *)
Record EtcdV3 : Type := { client : S; conf : Config; timeout : Z }.

Definition NewEtcd (etcdConf : conf.Etcd) : error + EtcdV3 :=
  let timeout := conf.Timeout etcdConf in
  let s_timeout := if (timeout =? 0)%Z then (10 * Second)%Z else timeout in
  let tls : error + option TLSConfig :=
    match conf.TLS_ etcdConf with
    | Some t =>
        if conf.Verify t
        then
          match ClientConfig {| transport.CertFile := conf.CertFile t;
                                transport.KeyFile := conf.KeyFile t |} with
          | inl err => inl err
          | inr tlsConf => inr (Some tlsConf)
          end
        else inr None
    | None => inr None
    end in
  match tls with
  | inl err => inl err
  | inr tlsConf =>
      let config :=
        {| Endpoints := conf.Host etcdConf;
           DialTimeout := timeout;
           DialKeepAliveTimeout := timeout;
           Username := conf.User etcdConf;
           Password := conf.Password etcdConf;
           TLS := tlsConf |} in
      match New (Endpoints config) (DialTimeout config) (DialKeepAliveTimeout config)
                (Username config) (Password config) (TLS config) with
      | inl err => inl err
      | inr cli => inr {| client := cli; conf := config; timeout := s_timeout |}
      end
  end.

End New.

End connect.

(** ** Construction of the store (store.go, NewGenericStore) *)

Module reflect.

(** The part of [reflect.Type] the constructor inspects: a struct type,
    given by its zero value, a pointer type, or a type of another kind. *)
Inductive Type_ : Type :=
| StructOf (zero : entity.Object)
| PtrTo (elem : Type_)
| OtherKind.

Inductive Kind_ : Type := Struct | Ptr | Other.

Definition Kind (t : Type_) : Kind_ :=
  match t with
  | StructOf _ => Struct
  | PtrTo _ => Ptr
  | OtherKind => Other
  end.

Definition Kind_eqb (a b : Kind_) : bool :=
  match a, b with
  | Struct, Struct | Ptr, Ptr | Other, Other => true
  | _, _ => false
  end.

(** [Elem] panics on a type that has no element type. *)
Definition Elem (t : Type_) : outcome Type_ :=
  match t with
  | PtrTo e => Ok e
  | _ => Panic
  end.

End reflect.

Module construct.

(** [GenericStoreOption] as the caller passes it: [ObjType] is a
    [reflect.Type], nil when absent. *)
Record GenericStoreOption : Type := {
  BasePath : string;
  Prefix : string;
  ObjType : option reflect.Type_
}.

Definition NewGenericStore {S : Type} (typ : string) (opt : GenericStoreOption) (stg : S)
  : outcome (GenericStore.t S) :=
  if String.eqb (BasePath opt) "" then Err "base path can not be empty"
  else
    match ObjType opt with
    | None => Err "object type can not be nil"
    | Some objType =>
        let unwrapped :=
          if reflect.Kind_eqb (reflect.Kind objType) reflect.Ptr
          then reflect.Elem objType
          else Ok objType in
        match unwrapped with
        | Ok objType' =>
            if negb (reflect.Kind_eqb (reflect.Kind objType') reflect.Struct)
            then Err "object type is invalid"
            else
              match objType' with
              | reflect.StructOf zero =>
                  Ok {| GenericStore.Typ := typ;
                        GenericStore.Stg := stg;
                        GenericStore.calls := [];
                        GenericStore.heap := [];
                        GenericStore.cache := ∅;
                        GenericStore.opt :=
                          {| GenericStore.BasePath := BasePath opt;
                             GenericStore.Prefix := Prefix opt;
                             GenericStore.ObjType := zero |} |}
              | _ => Panic  (* not reached: the kind is Struct *)
              end
        | Err err => Err err
        | Panic => Panic
        end
    end.

End construct.

(** ** The tracked cancellation (store.go, Watch and Unwatch) *)

Module watching.

(** A store together with its field [cancel] and the contexts created so
    far: [contexts !! c] tells whether context [c] has been cancelled.  A
    cancel function is the number of its context; nil is [None]. *)
Record t (S : Type) : Type := {
  store : GenericStore.t S;
  cancel : option nat;
  contexts : list bool
}.
Arguments store {S} _.
Arguments cancel {S} _.
Arguments contexts {S} _.

Section Ops.
Context {S : Type} (stg : GenericStore.Interface.t S).

(** A store as [NewGenericStore] returns it: no cancel function yet. *)
Definition fresh (st : GenericStore.t S) : t S :=
  {| store := st; cancel := None; contexts := [] |}.

Definition Watch (w : t S) : t S * list event.StoreEvent :=
  let c := length (contexts w) in
  let '(st, ch) := GenericStore.Watch stg (store w) in
  ({| store := st; cancel := Some c; contexts := contexts w ++ [ false ] |}, ch).

(** Calling a nil function panics. *)
Definition Unwatch (w : t S) : outcome (t S) :=
  match cancel w with
  | None => Panic
  | Some c =>
      Ok {| store := store w; cancel := cancel w;
            contexts := <[c := true]> (contexts w) |}
  end.

End Ops.

End watching.

(** ** Samples of the further examples *)

Module sample.

(** A TLS section whose verification is switched off. *)
Definition tls : conf.TLS :=
  {| conf.CertFile := "cert.pem"; conf.KeyFile := "key.pem"; conf.Verify := false |}.

Definition etcd_conf : conf.Etcd :=
  {| conf.Host := [ "127.0.0.1:2379" ]; conf.Timeout := 0;
     conf.User := ""; conf.Password := ""; conf.TLS_ := Some tls |}.

(** A certificate loader that always fails, and a dialler that records
    what it was given. *)
Definition no_cert (i : transport.TLSInfo) : error + unit :=
  inl "open cert.pem: no such file or directory".

Definition dial (endpoints : list string) (dialTimeout keepAlive : Z)
    (username password : string) (tls : option unit) : error + kvserver.state :=
  inr (fixture.server []).

Definition option_of (t : option reflect.Type_) : construct.GenericStoreOption :=
  {| construct.BasePath := "/apisix/routes"; construct.Prefix := "/apisix";
     construct.ObjType := t |}.

End sample.

(** ** Auxiliary notions of the further statements *)

(** The operation [Watch] gives a notification. *)
Definition typ_of (EventAdd EventDelete : string) (ev : clientv3.Event) : string :=
  if (clientv3.Type_ ev =? clientv3.EventTypePut)%Z then EventAdd
  else if (clientv3.Type_ ev =? clientv3.EventTypeDelete)%Z then EventDelete
  else "".

(** The item a notification becomes. *)
Definition item_of (EventAdd EventDelete : string) (ev : clientv3.Event) : event.Item :=
  {| event.Op := typ_of EventAdd EventDelete ev;
     event.Key := clientv3.Key (clientv3.Kv ev);
     event.Value := clientv3.Value (clientv3.Kv ev) |}.

(** A notification survives when it is no directory marker and its item is
    not refused. *)
Definition survives (EventAdd EventDelete : string)
    (validate : string -> string -> string -> option error) (ev : clientv3.Event) : bool :=
  negb (bytes_Equal (clientv3.Value (clientv3.Kv ev)) EtcdV3.DirPlaceholder)
  && match validate (typ_of EventAdd EventDelete ev) (clientv3.Key (clientv3.Kv ev))
                    (clientv3.Value (clientv3.Kv ev)) with
     | None => true
     | Some _ => false
     end.

(** * Properties *)

(** ** Strings and errors *)

Lemma append_cancel_l (p a b : string) : p +:+ a = p +:+ b -> a = b.
Proof.
  induction p as [|c p IH]; simpl; intros H; [exact H|].
  injection H as H. exact (IH H).
Qed.

(** ** The listing loop of the adapter *)

Lemma list_fold_entries (kvs : list clientv3.KeyValue) (acc : utils.Message) :
  fold_left (fun ret kv => utils.Add ret (clientv3.Key kv) (clientv3.Value kv)) kvs acc
  = acc ++ map to_entry kvs.
Proof.
  revert acc. induction kvs as [|kv kvs IH]; intros acc; simpl.
  - by rewrite app_nil_r.
  - rewrite IH. unfold utils.Add. by rewrite <- app_assoc.
Qed.

Lemma bytes_Equal_false (a b : string) : bytes_Equal a b = false -> a <> b.
Proof. unfold bytes_Equal. intros H Heq. apply String.eqb_neq in H. contradiction. Qed.

Section AdapterFacts.
Context {S : Type} (client : clientv3.Client S).
Variables (EventAdd EventDelete : string).
Variable validate : string -> string -> string -> option error.

Lemma watch_item_clean (se : event.StoreEvent) (ev : clientv3.Event) :
    clean se -> clean (EtcdV3.watch_item EventAdd EventDelete validate se ev).
Proof.
    intros Hse. unfold EtcdV3.watch_item.
    destruct (bytes_Equal _ _) eqn:Hb; [exact Hse|].
    unfold event.Add. destruct (validate _ _ _); simpl; [exact Hse|].
    unfold clean; simpl. apply Forall_app. split; [exact Hse|].
    constructor; [|constructor]. simpl. by apply bytes_Equal_false.
Qed.

Lemma watch_fold_clean (evs : list clientv3.Event) (se : event.StoreEvent) :
    clean se ->
    clean (fold_left (EtcdV3.watch_item EventAdd EventDelete validate) evs se).
Proof.
    revert se. induction evs as [|ev evs IH]; intros se Hse; simpl; [exact Hse|].
    apply IH. by apply watch_item_clean.
Qed.

Lemma watch_batch_clean (batch : clientv3.WatchResponse) :
    clean (EtcdV3.watch_batch EventAdd EventDelete validate batch).
Proof. apply watch_fold_clean. constructor. Qed.

  (** What [List] returns, read off the reply of the client. *)
Lemma List_Ok_inv (s : S) (prefix : string) (msg : utils.Message) :
    snd (EtcdV3.List client s prefix) = Ok msg ->
    exists resp kv0,
      snd (clientv3.Get client s prefix true) = inr resp /\
      clientv3.Kvs resp !! 0%nat = Some kv0 /\
      msg = map to_entry
              (if bytes_Equal (clientv3.Value kv0) EtcdV3.DirPlaceholder
               then drop 1 (clientv3.Kvs resp) else clientv3.Kvs resp).
Proof.
    unfold EtcdV3.List.
    destruct (clientv3.Get client s prefix true) as [s' [err|resp]]; simpl; [discriminate|].
    destruct (clientv3.Count resp =? 0)%Z; simpl; [discriminate|].
    destruct (clientv3.Kvs resp !! 0%nat) as [kv0|] eqn:Hkv; simpl; [|discriminate].
    intros H. injection H as <-. exists resp, kv0. repeat split; [done|].
    by rewrite list_fold_entries.
Qed.

End AdapterFacts.

(** ** C1: the directory placeholder in listings and in watch events *)

(** C1 (as amended).  [Watch] never emits an item whose value is the
    directory placeholder, wherever the placeholder stands in a batch.
    [List] drops the placeholder only when it is the first entry of the
    range: its result is free of placeholders whenever no entry after the
    first carries one. *)
Theorem C1_placeholder_filtered {S : Type} (client : clientv3.Client S)
    (EventAdd EventDelete : string)
    (validate : string -> string -> string -> option error)
    (s : S) (key : string) :
  (forall ev item,
      In ev (EtcdV3.Watch client EventAdd EventDelete validate s key) ->
      In item (event.Events ev) ->
      event.Value item <> EtcdV3.DirPlaceholder)
  /\
  (forall resp msg,
      snd (clientv3.Get client s key true) = inr resp ->
      Forall (fun kv => clientv3.Value kv <> EtcdV3.DirPlaceholder)
             (drop 1 (clientv3.Kvs resp)) ->
      snd (EtcdV3.List client s key) = Ok msg ->
      Forall (fun e => utils.Value e <> EtcdV3.DirPlaceholder) msg).
Proof.
  split.
  - intros ev item Hev Hitem. unfold EtcdV3.Watch in Hev.
    apply in_map_iff in Hev as [batch [<- _]].
    pose proof (watch_batch_clean EventAdd EventDelete validate batch) as Hc.
    unfold clean in Hc. rewrite List.Forall_forall in Hc. by apply Hc.
  - intros resp msg Hget Htail Hlist.
    apply List_Ok_inv in Hlist as (resp' & kv0 & Hget' & Hkv0 & ->).
    rewrite Hget in Hget'. injection Hget' as <-.
    apply Forall_map. simpl.
    destruct (bytes_Equal _ _) eqn:Hb; [exact Htail|].
    destruct (clientv3.Kvs resp) as [|kv kvs]; [constructor|].
    simpl in Hkv0. injection Hkv0 as ->.
    constructor; [by apply bytes_Equal_false | exact Htail].
Qed.

(** A placeholder that is not the first entry of the range is returned by
    [List]: here it marks a directory below the listed prefix. *)
Lemma C1_counterexample_placeholder_listed :
  snd (EtcdV3.List kvserver.client
         (kvserver.replay [ kvserver.WCreate "/apisix/routes/sub" "init_dir";
                            kvserver.WCreate "/apisix/routes/1" "{}" ]
                          (fixture.server []))
         "/apisix/routes")
  = Ok [ fixture.entry "/apisix/routes/1" "{}";
         fixture.entry "/apisix/routes/sub" EtcdV3.DirPlaceholder ].
Proof. reflexivity. Qed.

Lemma C1_witness :
  Forall (fun e => utils.Value e <> EtcdV3.DirPlaceholder)
         [ fixture.entry "/apisix/routes/1" (fixture.json_id "1") ].
Proof.
  pose proof (C1_placeholder_filtered kvserver.client "add" "delete" fixture.validate
                (fixture.server [ fixture.kv "/apisix/routes" "init_dir";
                                  fixture.kv "/apisix/routes/1" (fixture.json_id "1") ])
                "/apisix/routes") as [_ H].
  eapply H.
  - reflexivity.
  - simpl. constructor; [|constructor]. simpl. discriminate.
  - reflexivity.
Defined.

(** A batch with a put under the routes directory and a put of the
    directory marker: the event sent has the one add item. *)
Example Watch_drops_directory_marker :
  EtcdV3.Watch kvserver.client "add" "delete" fixture.validate
    (fixture.feeding
       [ {| clientv3.Canceled := false;
            clientv3.Events :=
              [ fixture.put_event "/apisix/routes/2" (fixture.json_id "2");
                fixture.put_event "/apisix/routes" "init_dir" ] |} ])
    "/apisix/routes"
  = [ {| event.Canceled := false;
         event.Events :=
           [ {| event.Op := "add"; event.Key := "/apisix/routes/2";
                event.Value := fixture.json_id "2" |} ] |} ].
Proof. reflexivity. Qed.

(** ** C2: reading what was never written *)

Lemma put_elem (k v : string) (d : list clientv3.KeyValue) (x : clientv3.KeyValue) :
  In x (kvserver.put k v d) -> In x d \/ clientv3.Key x = k.
Proof.
  induction d as [|y d IH]; simpl.
  - intros [<-|[]]. by right.
  - destruct (String.compare k (clientv3.Key y)); simpl.
    + intros [<-|H]; [by right | left; by right].
    + intros [<-|H]; [by right | by left].
    + intros [<-|H]; [left; by left|].
      destruct (IH H) as [H'|H']; [left; by right | by right].
Qed.

Lemma apply_elem (s : kvserver.state) (w : kvserver.write) (x : clientv3.KeyValue) :
  In x (kvserver.data (kvserver.apply s w)) ->
  In x (kvserver.data s) \/ kvserver.written w = Some (clientv3.Key x).
Proof.
  destruct w as [k v|k v|k|p]; simpl;
    unfold EtcdV3.Create, EtcdV3.Update, EtcdV3.Delete, EtcdV3.DeletePrefix; simpl;
    unfold kvserver.Put, kvserver.Delete;
    destruct (kvserver.failure s); simpl; auto.
  - intros H. apply put_elem in H as [H| ->]; auto.
  - intros H. apply put_elem in H as [H| ->]; auto.
  - destruct (_ =? _)%Z; simpl; intros H; apply filter_In in H as [H _]; auto.
  - destruct (_ =? _)%Z; simpl; intros H; apply filter_In in H as [H _]; auto.
Qed.

Lemma replay_unselected (withPrefix : bool) (k : string) (hist : list kvserver.write)
    (s : kvserver.state) :
  kvserver.never_written withPrefix k hist ->
  Forall (fun x => kvserver.selects withPrefix k x = false) (kvserver.data s) ->
  Forall (fun x => kvserver.selects withPrefix k x = false)
         (kvserver.data (kvserver.replay hist s)).
Proof.
  revert s. induction hist as [|w hist IH]; intros s Hn Hs; simpl; [exact Hs|].
  inversion Hn as [|? ? Hw Hn']; subst.
  apply IH; [exact Hn'|].
  rewrite List.Forall_forall in *. intros x Hx.
  apply apply_elem in Hx as [Hx|Hx]; [by apply Hs|].
  rewrite Hx in Hw. exact Hw.
Qed.

Lemma range_unselected (withPrefix : bool) (k : string) (d : list clientv3.KeyValue) :
  Forall (fun x => kvserver.selects withPrefix k x = false) d ->
  kvserver.range withPrefix k d = [].
Proof.
  unfold kvserver.range. induction 1 as [|x d Hx _ IH]; simpl; [done|].
  by rewrite Hx.
Qed.

(** C2.  On a server whose history never wrote [key], nor any key under
    [prefix], [Get key] and [List prefix] return the not-found error when
    the transport answers, and the transport-failure error when it does not;
    the two errors differ whatever the key and the cause. *)
Theorem C2_never_written_NotFound (hist : list kvserver.write) (s0 : kvserver.state)
    (key prefix : string) :
  kvserver.data s0 = [] ->
  kvserver.never_written false key hist ->
  kvserver.never_written true prefix hist ->
  let s := kvserver.replay hist s0 in
  (kvserver.failure s = None ->
     snd (EtcdV3.Get kvserver.client s key)
     = Err ("etcd get key[" +:+ key +:+ "] is not found") /\
     snd (EtcdV3.List kvserver.client s prefix)
     = Err ("etcd list prefix[" +:+ prefix +:+ "] is not found"))
  /\
  (forall e, kvserver.failure s = Some e ->
     snd (EtcdV3.Get kvserver.client s key)
     = Err ("etcd get key[" +:+ key +:+ "] failed: " +:+ e) /\
     snd (EtcdV3.List kvserver.client s prefix)
     = Err ("etcd list prefix[" +:+ prefix +:+ "] failed: " +:+ e))
  /\
  (forall e,
     "etcd get key[" +:+ key +:+ "] is not found"
     <> "etcd get key[" +:+ key +:+ "] failed: " +:+ e /\
     "etcd list prefix[" +:+ prefix +:+ "] is not found"
     <> "etcd list prefix[" +:+ prefix +:+ "] failed: " +:+ e).
Proof.
  intros Hempty Hkey Hprefix s.
  assert (Hk : kvserver.range false key (kvserver.data s) = []).
  { apply range_unselected, replay_unselected; [exact Hkey|]. rewrite Hempty. constructor. }
  assert (Hp : kvserver.range true prefix (kvserver.data s) = []).
  { apply range_unselected, replay_unselected; [exact Hprefix|]. rewrite Hempty. constructor. }
  split; [|split].
  - intros Hok. unfold EtcdV3.Get, EtcdV3.List; simpl. unfold kvserver.Get.
    rewrite Hok, Hk, Hp. simpl. by split.
  - intros e He. unfold EtcdV3.Get, EtcdV3.List; simpl. unfold kvserver.Get.
    rewrite He. simpl. by split.
  - intros e. split; intros H.
    + apply append_cancel_l, append_cancel_l in H. simpl in H. discriminate.
    + apply append_cancel_l, append_cancel_l in H. simpl in H. discriminate.
Qed.

Lemma C2_witness :
  snd (EtcdV3.Get kvserver.client
         (kvserver.replay [ kvserver.WCreate "/apisix/routes/1" "{}";
                            kvserver.WDelete "/apisix/routes/1" ]
                          (fixture.server []))
         "/apisix/upstreams/1")
  = Err "etcd get key[/apisix/upstreams/1] is not found".
Proof.
  refine (proj1 (proj1 (C2_never_written_NotFound
                   [ kvserver.WCreate "/apisix/routes/1" "{}";
                     kvserver.WDelete "/apisix/routes/1" ]
                   (fixture.server []) "/apisix/upstreams/1" "/apisix/upstreams"
                   _ _ _) _)).
  - reflexivity.
  - repeat constructor.
  - repeat constructor.
  - reflexivity.
Defined.

(** ** C9: Create and Update *)

(** The server's put is an unconditional upsert: the key reads back the
    value written, and writing it again changes nothing. *)
Lemma compare_refl (k : string) : String.compare k k = Eq.
Proof.
  pose proof (String.compare_antisym k k) as H.
  destruct (String.compare k k); simpl in H; [reflexivity | discriminate | discriminate].
Qed.

Lemma put_elem_new (k v : string) (d : list clientv3.KeyValue) :
  In (fixture.kv k v) (kvserver.put k v d).
Proof.
  induction d as [|y d IH]; simpl; [by left|].
  destruct (String.compare k (clientv3.Key y)); simpl; auto.
Qed.

Lemma put_idempotent (k v : string) (d : list clientv3.KeyValue) :
  kvserver.put k v (kvserver.put k v d) = kvserver.put k v d.
Proof.
  pose proof (compare_refl k) as Hrefl.
  induction d as [|y d IH]; simpl.
  - by rewrite Hrefl.
  - destruct (String.compare k (clientv3.Key y)) eqn:Hc; simpl.
    + by rewrite Hrefl.
    + by rewrite Hrefl.
    + by rewrite Hc, IH.
Qed.

(** On the reference server both calls are that upsert. *)
Lemma Create_Update_upsert (s : kvserver.state) (key value : string) :
  kvserver.failure s = None ->
  kvserver.data (fst (EtcdV3.Create kvserver.client s key value))
  = kvserver.put key value (kvserver.data s)
  /\ kvserver.data (fst (EtcdV3.Update kvserver.client s key value))
     = kvserver.put key value (kvserver.data s).
Proof.
  intros Hok. unfold EtcdV3.Create, EtcdV3.Update. simpl. unfold kvserver.Put.
  by rewrite Hok.
Qed.

(** C9.  [Create] and [Update] leave the backend in the same state, that of
    the one [Put] each of them issues, and either both succeed or both fail:
    exactly when that [Put] does.  Only the wording of the error differs. *)
Theorem C9_Create_Update_equivalent {S : Type} (client : clientv3.Client S)
    (s : S) (key value : string) :
  fst (EtcdV3.Create client s key value) = fst (EtcdV3.Update client s key value)
  /\ fst (EtcdV3.Create client s key value) = fst (clientv3.Put client s key value)
  /\ (snd (EtcdV3.Create client s key value) = None
      <-> snd (EtcdV3.Update client s key value) = None)
  /\ (snd (EtcdV3.Create client s key value) = None
      <-> snd (clientv3.Put client s key value) = None)
  /\ (forall err,
        snd (clientv3.Put client s key value) = Some err ->
        snd (EtcdV3.Create client s key value)
        = Some ("etcd put key[" +:+ key +:+ "] failed: " +:+ err) /\
        snd (EtcdV3.Update client s key value)
        = Some ("etcd update key[" +:+ key +:+ "] failed: " +:+ err)).
Proof.
  unfold EtcdV3.Create, EtcdV3.Update.
  destruct (clientv3.Put client s key value) as [s' [err|]]; simpl.
  - split; [reflexivity|]. split; [reflexivity|].
    split; [split; discriminate|]. split; [split; discriminate|].
    intros e He. injection He as <-. by split.
  - split; [reflexivity|]. split; [reflexivity|].
    split; [done|]. split; [done|]. intros e He. discriminate.
Qed.

(** ** C10: indexing the first key-value pair *)

(** The reference server counts what it returns. *)
Lemma kvserver_Count (s : kvserver.state) (k : string) (withPrefix : bool)
    (resp : clientv3.GetResponse) :
  snd (kvserver.Get s k withPrefix) = inr resp ->
  clientv3.Count resp = Z.of_nat (length (clientv3.Kvs resp)).
Proof.
  unfold kvserver.Get. destruct (kvserver.failure s); simpl; [discriminate|].
  intros H. injection H as <-. reflexivity.
Qed.

(** C10.  When the count of a response is the length of its key-value
    sequence, [Get] and [List] index the first pair only of a non-empty
    sequence: neither call panics, and each returns a value or an error. *)
Theorem C10_first_element_safe {S : Type} (client : clientv3.Client S)
    (s : S) (key : string) :
  (forall withPrefix resp,
      snd (clientv3.Get client s key withPrefix) = inr resp ->
      clientv3.Count resp = Z.of_nat (length (clientv3.Kvs resp))) ->
  snd (EtcdV3.Get client s key) <> Panic /\
  snd (EtcdV3.List client s key) <> Panic.
Proof.
  intros Hcount. split.
  - unfold EtcdV3.Get. pose proof (Hcount false) as Hc.
    destruct (clientv3.Get client s key false) as [s' [err|resp]]; simpl; [discriminate|].
    specialize (Hc resp eq_refl).
    destruct (clientv3.Count resp =? 0)%Z eqn:Hz; simpl; [discriminate|].
    destruct (clientv3.Kvs resp) as [|kv kvs]; simpl; [|discriminate].
    simpl in Hc. rewrite Hc in Hz. discriminate.
  - unfold EtcdV3.List. pose proof (Hcount true) as Hc.
    destruct (clientv3.Get client s key true) as [s' [err|resp]]; simpl; [discriminate|].
    specialize (Hc resp eq_refl).
    destruct (clientv3.Count resp =? 0)%Z eqn:Hz; simpl; [discriminate|].
    destruct (clientv3.Kvs resp) as [|kv kvs]; simpl; [|discriminate].
    simpl in Hc. rewrite Hc in Hz. discriminate.
Qed.

Lemma C10_witness :
  snd (EtcdV3.Get kvserver.client
         (fixture.server [ fixture.kv "/apisix/routes/1" "{}" ]) "/apisix/routes/1")
  <> Panic
  /\ snd (EtcdV3.List kvserver.client
            (fixture.server [ fixture.kv "/apisix/routes/1" "{}" ]) "/apisix/routes/1")
     <> Panic.
Proof.
  apply (C10_first_element_safe kvserver.client).
  intros withPrefix resp H. exact (kvserver_Count _ _ _ _ H).
Defined.

(** ** The cache: Store and Delete *)

Section CacheFacts.
Context {S : Type}.
Implicit Types (s : GenericStore.t S) (k : string) (v : GenericStore.Ptr).

(** Whatever the cache held, [Store] leaves the new value current. *)
Lemma Store_cache s k v :
  GenericStore.cache (fst (GenericStore.Store s k v)) = <[k := v]> (GenericStore.cache s).
Proof.
  unfold GenericStore.Store, syncmap.LoadOrStore, syncmap.Store.
  destruct (GenericStore.cache s !! k) eqn:Hk; reflexivity.
Qed.

Lemma Store_existed s k v :
  snd (snd (GenericStore.Store s k v)) = bool_decide (is_Some (GenericStore.cache s !! k)).
Proof.
  unfold GenericStore.Store, syncmap.LoadOrStore.
  destruct (GenericStore.cache s !! k) eqn:Hk; reflexivity.
Qed.

Lemma Store_frame s k v :
  GenericStore.heap (fst (GenericStore.Store s k v)) = GenericStore.heap s /\
  GenericStore.opt (fst (GenericStore.Store s k v)) = GenericStore.opt s /\
  GenericStore.Stg (fst (GenericStore.Store s k v)) = GenericStore.Stg s /\
  GenericStore.calls (fst (GenericStore.Store s k v)) = GenericStore.calls s.
Proof.
  unfold GenericStore.Store, syncmap.LoadOrStore.
  destruct (GenericStore.cache s !! k); simpl; auto.
Qed.

End CacheFacts.

(** C7.  Whatever the cache held and whatever flag is reported, [Store]
    leaves the new value current.  On a key absent from the cache,
    [Store k v1] reports [existed = false]; the following [Store k v2]
    reports [existed = true]; and the cache then holds [v2] at [k]. *)
Theorem C7_Store_then_Store {S : Type} (s : GenericStore.t S) (k : string)
    (v1 v2 : GenericStore.Ptr) :
  let r1 := GenericStore.Store s k v1 in
  let r2 := GenericStore.Store (fst r1) k v2 in
  syncmap.Load (GenericStore.cache (fst r1)) k = (Some v1, true) /\
  syncmap.Load (GenericStore.cache (fst r2)) k = (Some v2, true) /\
  snd (snd r2) = true /\
  (GenericStore.cache s !! k = None -> snd (snd r1) = false).
Proof.
  intros r1 r2. subst r1 r2.
  rewrite !Store_existed. unfold syncmap.Load.
  rewrite !Store_cache, !lookup_insert_eq.
  split; [reflexivity|]. split; [reflexivity|].
  split; [apply bool_decide_eq_true; eauto|].
  intros ->. apply bool_decide_eq_false. by intros [? ?].
Qed.

Lemma C7_witness :
  let r1 := GenericStore.Store (fixture.store [] fixture.route) "/apisix/routes/1" 0 in
  let r2 := GenericStore.Store (fst r1) "/apisix/routes/1" 1 in
  snd (snd r1) = false /\
  snd (snd r2) = true /\
  syncmap.Load (GenericStore.cache (fst r2)) "/apisix/routes/1" = (Some 1, true).
Proof.
  destruct (C7_Store_then_Store (fixture.store [] fixture.route) "/apisix/routes/1" 0 1)
    as (_ & Hload & Htrue & Hfalse).
  split; [apply Hfalse; reflexivity|]. split; [exact Htrue | exact Hload].
Defined.

(** C8.  After [Store k v], [Delete k] returns [(v, true)] and removes the
    entry; a second [Delete k] returns [(none, false)]. *)
Theorem C8_Delete_after_Store {S : Type} (s : GenericStore.t S) (k : string)
    (v : GenericStore.Ptr) :
  let s1 := fst (GenericStore.Store s k v) in
  let d1 := GenericStore.Delete s1 k in
  let d2 := GenericStore.Delete (fst d1) k in
  snd d1 = (Some v, true) /\
  GenericStore.cache (fst d1) !! k = None /\
  snd d2 = (None, false).
Proof.
  intros s1 d1 d2. subst d2 d1.
  assert (H1 : GenericStore.cache s1 !! k = Some v).
  { subst s1. by rewrite Store_cache, lookup_insert_eq. }
  assert (Hd : GenericStore.Delete s1 k
               = (GenericStore.set_cache s1 (delete k (GenericStore.cache s1)),
                  (Some v, true))).
  { unfold GenericStore.Delete, syncmap.LoadAndDelete. by rewrite H1. }
  rewrite Hd. simpl. rewrite lookup_delete_eq. split; [done|]. split; [done|].
  unfold GenericStore.Delete, syncmap.LoadAndDelete. simpl.
  by rewrite lookup_delete_eq.
Qed.

(** ** UpdateNodes *)

Section UpdateNodesFacts.
Context {S : Type} (stg : GenericStore.Interface.t S) (codec : entity.Codec).
Implicit Types (s : GenericStore.t S) (key : string) (nodes : list entity.Node).

Lemma updated_Nodes (o : entity.Object) nodes :
  entity.Nodes (updated codec o nodes) = Some nodes.
Proof. destruct o as [f [info|] n a]; reflexivity. Qed.

Lemma updated_Info (o : entity.Object) nodes :
  entity.Info (updated codec o nodes)
  = (fun info => entity.Updating codec info info) <$> entity.Info o.
Proof. destruct o as [f [info|] n a]; reflexivity. Qed.

(** The call once the key, the cache and the capability checks are passed. *)
Lemma UpdateNodes_checked s key nodes (p : GenericStore.Ptr) (o : entity.Object)
    (old : list entity.Node) :
  key <> "" ->
  GenericStore.cache s !! key = Some p ->
  GenericStore.heap s !! p = Some o ->
  entity.Nodes o = Some old ->
  GenericStore.UpdateNodes stg codec s key nodes
  = let s1 := GenericStore.set_heap s (<[p := updated codec o nodes]> (GenericStore.heap s)) in
    match GenericStore.encode codec (updated codec o nodes) with
    | inl err => (s1, Some ("marshal failed: " +:+ err))
    | inr bs =>
        (GenericStore.called s1 (GenericStore.CallUpdate key bs)
           (fst (GenericStore.Interface.Update stg (GenericStore.Stg s) key bs)),
         snd (GenericStore.Interface.Update stg (GenericStore.Stg s) key bs))
    end.
Proof.
  intros Hkey Hc Hh Hn. unfold GenericStore.UpdateNodes, syncmap.Load.
  apply String.eqb_neq in Hkey. rewrite Hkey, Hc. simpl. rewrite Hh, Hn.
  unfold updated. simpl.
  destruct (GenericStore.encode codec _) as [err|bs]; [reflexivity|].
  simpl. by destruct (GenericStore.Interface.Update stg (GenericStore.Stg s) key bs).
Qed.

End UpdateNodesFacts.

(** C3 (as amended).  [UpdateNodes] fails on an empty key; fails with the
    not-found error when the cache has nothing at the key; fails with the
    capability error, changing nothing, when the cached object cannot set
    nodes; otherwise the node list is replaced and the hook run on the base
    information when there is one, and then: when the object re-encodes, the
    backend receives exactly one [Update] call, with the key and the new
    encoding; when it does not, the error is returned and the backend is not
    called. *)
Theorem C3_UpdateNodes_cases {S : Type} (stg : GenericStore.Interface.t S)
    (codec : entity.Codec) (s : GenericStore.t S) (key : string)
    (nodes : list entity.Node) :
  let r := GenericStore.UpdateNodes stg codec s key nodes in
  (key = "" -> r = (s, Some "key is required"))
  /\ (key <> "" -> GenericStore.cache s !! key = None ->
      r = (s, Some ("key: " +:+ key +:+ " is not found")))
  /\ (forall p, key <> "" -> GenericStore.cache s !! key = Some p ->
      (forall o, GenericStore.heap s !! p = Some o -> entity.Nodes o = None) ->
      r = (s, Some "object can't set nodes"))
  /\ (forall p o old, key <> "" -> GenericStore.cache s !! key = Some p ->
      GenericStore.heap s !! p = Some o -> entity.Nodes o = Some old ->
      GenericStore.heap (fst r) = <[p := updated codec o nodes]> (GenericStore.heap s)
      /\ GenericStore.cache (fst r) = GenericStore.cache s
      /\ entity.Nodes (updated codec o nodes) = Some nodes
      /\ entity.Info (updated codec o nodes)
         = (fun info => entity.Updating codec info info) <$> entity.Info o
      /\ (forall bs, GenericStore.encode codec (updated codec o nodes) = inr bs ->
          GenericStore.calls (fst r)
          = GenericStore.calls s ++ [ GenericStore.CallUpdate key bs ]
          /\ GenericStore.Stg (fst r)
             = fst (GenericStore.Interface.Update stg (GenericStore.Stg s) key bs)
          /\ snd r = snd (GenericStore.Interface.Update stg (GenericStore.Stg s) key bs))
      /\ (forall err, GenericStore.encode codec (updated codec o nodes) = inl err ->
          GenericStore.calls (fst r) = GenericStore.calls s
          /\ GenericStore.Stg (fst r) = GenericStore.Stg s
          /\ snd r = Some ("marshal failed: " +:+ err))).
Proof.
  intros r. subst r. split; [|split; [|split]].
  - intros ->. reflexivity.
  - intros Hkey Hc. unfold GenericStore.UpdateNodes, syncmap.Load.
    apply String.eqb_neq in Hkey. by rewrite Hkey, Hc.
  - intros p Hkey Hc Hcap. unfold GenericStore.UpdateNodes, syncmap.Load.
    apply String.eqb_neq in Hkey. rewrite Hkey, Hc. simpl.
    destruct (GenericStore.heap s !! p) as [o|] eqn:Hh; [|reflexivity].
    by rewrite (Hcap o eq_refl).
  - intros p o old Hkey Hc Hh Hn.
    rewrite (UpdateNodes_checked stg codec s key nodes p o old Hkey Hc Hh Hn).
    rewrite updated_Nodes, updated_Info. simpl.
    destruct (GenericStore.encode codec (updated codec o nodes)) as [err|bs]; simpl.
    + repeat (split; [reflexivity|]). split; [discriminate|].
      intros err' [= <-]. done.
    + repeat (split; [reflexivity|]). split; [|discriminate].
      intros bs' [= <-]. done.
Qed.

(** A call that passes every check and whose object does not re-encode:
    the backend receives no [Update] call. *)
Lemma C3_counterexample_no_Update :
  let r := GenericStore.UpdateNodes fixture.backend fixture.codec
             (fixture.caching (fixture.with_Fields fixture.route "NaN") [])
             "/apisix/routes/1" [ fixture.node ] in
  GenericStore.calls (fst r) = [] /\
  snd r = Some "marshal failed: json: unsupported value: NaN" /\
  (GenericStore.heap (fst r) !! 0%nat) ≫= entity.Nodes = Some [ fixture.node ].
Proof. vm_compute. done. Qed.

Lemma C3_witness :
  let r := GenericStore.UpdateNodes fixture.backend fixture.codec
             (fixture.caching (fixture.with_Fields fixture.route "{}") [])
             "/apisix/routes/1" [ fixture.node ] in
  GenericStore.calls (fst r) = [ GenericStore.CallUpdate "/apisix/routes/1" "{}" ]
  /\ snd r = None.
Proof.
  intros r.
  pose proof (C3_UpdateNodes_cases fixture.backend fixture.codec
                (fixture.caching (fixture.with_Fields fixture.route "{}") [])
                "/apisix/routes/1" [ fixture.node ]) as (_ & _ & _ & H).
  destruct (H 0%nat (fixture.with_Fields fixture.route "{}") [])
    as (_ & _ & _ & _ & Hok & _); [discriminate | reflexivity | reflexivity | reflexivity |].
  destruct (Hok "{}" eq_refl) as (Hcalls & _ & Hret).
  split; [exact Hcalls | exact Hret].
Defined.

(** C4.  Once the checks are passed, a failure to re-encode and a failure
    of the backend [Update] are both returned to the caller, and in both
    cases the object cached at the key holds the new node list: the cache is
    not rolled back. *)
Theorem C4_no_rollback {S : Type} (stg : GenericStore.Interface.t S)
    (codec : entity.Codec) (s : GenericStore.t S) (key : string)
    (nodes : list entity.Node) (p : GenericStore.Ptr) (o : entity.Object)
    (old : list entity.Node) :
  key <> "" ->
  GenericStore.cache s !! key = Some p ->
  GenericStore.heap s !! p = Some o ->
  entity.Nodes o = Some old ->
  let r := GenericStore.UpdateNodes stg codec s key nodes in
  let cached :=
    GenericStore.cache (fst r) !! key ≫= fun q => GenericStore.heap (fst r) !! q in
  (forall err,
      GenericStore.encode codec (updated codec o nodes) = inl err ->
      snd r = Some ("marshal failed: " +:+ err) /\
      cached = Some (updated codec o nodes) /\
      cached ≫= entity.Nodes = Some nodes)
  /\
  (forall bs err,
      GenericStore.encode codec (updated codec o nodes) = inr bs ->
      snd (GenericStore.Interface.Update stg (GenericStore.Stg s) key bs) = Some err ->
      snd r = Some err /\
      cached = Some (updated codec o nodes) /\
      cached ≫= entity.Nodes = Some nodes).
Proof.
  intros Hkey Hc Hh Hn r cached. subst cached r.
  rewrite (UpdateNodes_checked stg codec s key nodes p o old Hkey Hc Hh Hn).
  assert (Hp : <[p := updated codec o nodes]> (GenericStore.heap s) !! p
               = Some (updated codec o nodes)).
  { apply list_lookup_insert_eq. by eapply lookup_lt_Some. }
  split.
  - intros err He. rewrite He. simpl. rewrite Hc. simpl. rewrite Hp. simpl.
    by rewrite updated_Nodes.
  - intros bs err He Hu. rewrite He. simpl. rewrite Hc. simpl. rewrite Hp. simpl.
    by rewrite updated_Nodes.
Qed.

Lemma C4_witness :
  (let r := GenericStore.UpdateNodes fixture.backend fixture.codec
              (fixture.caching (fixture.with_Fields fixture.route "NaN") [])
              "/apisix/routes/1" [ fixture.node ] in
   snd r = Some "marshal failed: json: unsupported value: NaN" /\
   (GenericStore.cache (fst r) !! "/apisix/routes/1"
      ≫= fun q => GenericStore.heap (fst r) !! q) ≫= entity.Nodes
   = Some [ fixture.node ])
  /\
  (let r := GenericStore.UpdateNodes fixture.backend fixture.codec
              (fixture.caching (fixture.with_Fields fixture.route "{}")
                               [ Some "context deadline exceeded" ])
              "/apisix/routes/1" [ fixture.node ] in
   snd r = Some "etcd update key[/apisix/routes/1] failed: context deadline exceeded" /\
   (GenericStore.cache (fst r) !! "/apisix/routes/1"
      ≫= fun q => GenericStore.heap (fst r) !! q) ≫= entity.Nodes
   = Some [ fixture.node ]).
Proof.
  split.
  - intros r.
    destruct (C4_no_rollback fixture.backend fixture.codec
                (fixture.caching (fixture.with_Fields fixture.route "NaN") [])
                "/apisix/routes/1" [ fixture.node ] 0%nat
                (fixture.with_Fields fixture.route "NaN") [])
      as [H _]; [discriminate | reflexivity | reflexivity | reflexivity |].
    destruct (H "json: unsupported value: NaN" eq_refl) as (Herr & _ & Hnodes).
    split; [exact Herr | exact Hnodes].
  - intros r.
    destruct (C4_no_rollback fixture.backend fixture.codec
                (fixture.caching (fixture.with_Fields fixture.route "{}")
                                 [ Some "context deadline exceeded" ])
                "/apisix/routes/1" [ fixture.node ] 0%nat
                (fixture.with_Fields fixture.route "{}") [])
      as [_ H]; [discriminate | reflexivity | reflexivity | reflexivity |].
    destruct (H "{}" "etcd update key[/apisix/routes/1] failed: context deadline exceeded"
                eq_refl eq_refl) as (Herr & _ & Hnodes).
    split; [exact Herr | exact Hnodes].
Defined.

(** ** List *)

Section ListFacts.
Context {S : Type} (codec : entity.Codec) (filter : option (entity.Object -> bool)).
Variable o : GenericStore.GenericStoreOption.
Implicit Types (s : GenericStore.t S) (e : utils.Entry) (ret : utils.Message).

Lemma StringToObjPtr_ok s e (obj : entity.Object) :
  GenericStore.opt s = o ->
  decoded codec o e = inr obj ->
  GenericStore.StringToObjPtr codec s (utils.Value e) (utils.Key e)
  = (GenericStore.set_heap s (GenericStore.heap s ++ [ obj ]),
     Ok (length (GenericStore.heap s))).
Proof.
  intros Ho. unfold decoded, GenericStore.StringToObjPtr. rewrite Ho.
  destruct (GenericStore.decode codec _ _); [discriminate|].
  intros [= <-]. reflexivity.
Qed.

Lemma StringToObjPtr_err s e (err : error) :
  GenericStore.opt s = o ->
  decoded codec o e = inl err ->
  GenericStore.StringToObjPtr codec s (utils.Value e) (utils.Key e)
  = (s, Err (decode_error (utils.Key e) err)).
Proof.
  intros Ho. unfold decoded, GenericStore.StringToObjPtr. rewrite Ho.
  destruct (GenericStore.decode codec _ _); [|discriminate].
  intros [= <-]. reflexivity.
Qed.

Lemma accepts_fresh s (obj : entity.Object) :
  GenericStore.accepts filter
    (GenericStore.set_heap s (GenericStore.heap s ++ [ obj ]))
    (length (GenericStore.heap s))
  = passes filter obj.
Proof.
  unfold GenericStore.accepts, passes. destruct filter as [f|]; [|reflexivity].
  simpl. by rewrite list_lookup_middle.
Qed.

(** The loop over [pre ++ rest] is the loop over [rest] resumed where the
    loop over [pre] stopped, unless that one failed. *)
Lemma List_loop_app (pre rest : utils.Message) s (acc : list GenericStore.Ptr) :
  GenericStore.List_loop codec filter (pre ++ rest) s acc
  = match GenericStore.List_loop codec filter pre s acc with
    | (s1, Ok acc1) => GenericStore.List_loop codec filter rest s1 acc1
    | other => other
    end.
Proof.
  revert s acc. induction pre as [|e pre IH]; intros s acc; simpl; [reflexivity|].
  destruct (GenericStore.StringToObjPtr codec s (utils.Value e) (utils.Key e))
    as [s1 [p|err|]]; [|reflexivity|reflexivity].
  destruct (GenericStore.accepts filter s1 p); apply IH.
Qed.

(** The loop on entries that all decode. *)
Lemma List_loop_ok ret : forall s (acc : list GenericStore.Ptr),
  GenericStore.opt s = o ->
  Forall (fun e => decodes codec o e = true) ret ->
  exists s' new,
    GenericStore.List_loop codec filter ret s acc = (s', Ok (acc ++ new))
    /\ GenericStore.heap s' = GenericStore.heap s ++ map (object_of codec o) ret
    /\ map (fun p => GenericStore.heap s' !! p) new
       = map Some (map (object_of codec o) (accepted codec o filter ret))
    /\ GenericStore.cache s'
       = store_all (GenericStore.cache s)
                   (zip (map utils.Key (accepted codec o filter ret)) new)
    /\ GenericStore.opt s' = o
    /\ GenericStore.Stg s' = GenericStore.Stg s
    /\ GenericStore.calls s' = GenericStore.calls s.
Proof.
  induction ret as [|e ret IH]; intros s acc Ho Hall.
  - exists s, []. simpl. rewrite !app_nil_r. by repeat split.
  - apply Forall_cons in Hall as [He Hret].
    unfold decodes in He. destruct (decoded codec o e) as [err|obj] eqn:Hd;
      [discriminate|].
    assert (Hobj : object_of codec o e = obj)
      by (unfold object_of; by rewrite Hd).
    simpl. rewrite (StringToObjPtr_ok s e obj Ho Hd), accepts_fresh.
    unfold accepted; simpl. rewrite Hobj.
    destruct (passes filter obj) eqn:Hpass.
    + set (s1 := GenericStore.set_heap s (GenericStore.heap s ++ [ obj ])).
      destruct (Store_frame s1 (utils.Key e) (length (GenericStore.heap s)))
        as (Hheap & Hopt & Hstg & Hcalls).
      destruct (IH (fst (GenericStore.Store s1 (utils.Key e) (length (GenericStore.heap s))))
                   (acc ++ [ length (GenericStore.heap s) ]))
        as (s' & new & Hloop & Hh & Hderef & Hcache & Ho' & Hs' & Hc');
        [rewrite Hopt; exact Ho | exact Hret |].
      exists s', (length (GenericStore.heap s) :: new).
      rewrite Hheap in Hh. simpl in Hh.
      split; [by rewrite Hloop, <- app_assoc|].
      split; [by rewrite Hh, <- app_assoc|].
      split.
      { simpl. f_equal; [|exact Hderef].
        rewrite Hh, <- app_assoc. simpl.
        rewrite list_lookup_middle by reflexivity. by rewrite Hobj. }
      split.
      { simpl. rewrite Hcache, Store_cache. reflexivity. }
      split; [exact Ho'|]. split; [by rewrite Hs', Hstg | by rewrite Hc', Hcalls].
    + set (s1 := GenericStore.set_heap s (GenericStore.heap s ++ [ obj ])).
      destruct (IH s1 acc) as (s' & new & Hloop & Hh & Hderef & Hcache & Ho' & Hs' & Hc');
        [exact Ho | exact Hret |].
      exists s', new. simpl in Hh.
      split; [exact Hloop|].
      split; [by rewrite Hh, <- app_assoc|].
      by repeat split.
Qed.

End ListFacts.

(** C5.  Let the backend listing be [ret].  When every entry decodes,
    [List] returns pointers to the objects of the accepted entries, in
    listing order, and the cache is the old cache with each of these
    pointers stored under the path of its entry.  When the entries [pre]
    decode and the next entry [bad] does not, [List] returns the decoding
    error of [bad] in the state the loop reached after [pre]: the objects of
    [pre] stay cached, and nothing of the entries after [bad] is decoded or
    stored. *)
Theorem C5_List_in_order_and_short_circuit {S : Type}
    (stg : GenericStore.Interface.t S) (codec : entity.Codec)
    (s : GenericStore.t S) (filter : option (entity.Object -> bool))
    (stg' : S) (ret : utils.Message) :
  GenericStore.Interface.List stg (GenericStore.Stg s)
    (GenericStore.BasePath (GenericStore.opt s)) = (stg', Ok ret) ->
  let o := GenericStore.opt s in
  (Forall (fun e => decodes codec o e = true) ret ->
   exists s' ptrs,
     GenericStore.List stg codec s filter = (s', Ok ptrs)
     /\ map (fun p => GenericStore.heap s' !! p) ptrs
        = map Some (map (object_of codec o) (accepted codec o filter ret))
     /\ GenericStore.cache s'
        = store_all (GenericStore.cache s)
                    (zip (map utils.Key (accepted codec o filter ret)) ptrs))
  /\
  (forall pre bad post err,
     ret = pre ++ bad :: post ->
     Forall (fun e => decodes codec o e = true) pre ->
     decoded codec o bad = inl err ->
     exists s1 ptrs,
       GenericStore.List stg codec s filter
       = (s1, Err (decode_error (utils.Key bad) err))
       /\ GenericStore.heap s1 = GenericStore.heap s ++ map (object_of codec o) pre
       /\ map (fun p => GenericStore.heap s1 !! p) ptrs
          = map Some (map (object_of codec o) (accepted codec o filter pre))
       /\ GenericStore.cache s1
          = store_all (GenericStore.cache s)
                      (zip (map utils.Key (accepted codec o filter pre)) ptrs)).
Proof.
  intros Hlist o. split.
  - intros Hall. unfold GenericStore.List. rewrite Hlist.
    destruct (List_loop_ok codec filter o ret
                (GenericStore.called s
                   (GenericStore.CallList (GenericStore.BasePath (GenericStore.opt s))) stg')
                [] eq_refl Hall)
      as (s' & new & Hloop & _ & Hderef & Hcache & _).
    exists s', new. by rewrite Hloop.
  - intros pre bad post err -> Hpre Hbad.
    unfold GenericStore.List. rewrite Hlist.
    destruct (List_loop_ok codec filter o pre
                (GenericStore.called s
                   (GenericStore.CallList (GenericStore.BasePath (GenericStore.opt s))) stg')
                [] eq_refl Hpre)
      as (s1 & new & Hloop & Hheap & Hderef & Hcache & Hopt & _).
    exists s1, new. rewrite List_loop_app, Hloop. simpl.
    rewrite (StringToObjPtr_err codec o s1 bad err Hopt Hbad).
    by repeat split.
Qed.

(** The listing of the routes directory: the directory marker comes first
    and is dropped by the adapter; the one route is decoded, is given the
    identifier [1] of its path, and is cached under its path. *)
Lemma C5_witness :
  (exists s' ptrs,
     GenericStore.List fixture.backend fixture.codec
       (fixture.store [ fixture.kv "/apisix/routes" "init_dir";
                        fixture.kv "/apisix/routes/1" (fixture.json_id "1") ]
                      fixture.route)
       None
     = (s', Ok ptrs)
     /\ map (fun p => entity.ID <$> ((GenericStore.heap s' !! p) ≫= entity.Info)) ptrs
        = [ Some "1" ]
     /\ GenericStore.cache s' = {[ "/apisix/routes/1" := 0%nat ]})
  /\
  (exists s1,
     GenericStore.List fixture.backend fixture.codec
       (fixture.store [ fixture.kv "/apisix/routes/1" "{}";
                        fixture.kv "/apisix/routes/2" "";
                        fixture.kv "/apisix/routes/3" "{}" ]
                      fixture.route)
       None
     = (s1, Err (decode_error "/apisix/routes/2" "unexpected end of JSON input"))
     /\ length (GenericStore.heap s1) = 1%nat
     /\ GenericStore.cache s1 = {[ "/apisix/routes/1" := 0%nat ]}).
Proof.
  split.
  - destruct (C5_List_in_order_and_short_circuit fixture.backend fixture.codec
                (fixture.store [ fixture.kv "/apisix/routes" "init_dir";
                                 fixture.kv "/apisix/routes/1" (fixture.json_id "1") ]
                               fixture.route)
                None
                (fixture.server [ fixture.kv "/apisix/routes" "init_dir";
                                  fixture.kv "/apisix/routes/1" (fixture.json_id "1") ])
                [ fixture.entry "/apisix/routes/1" (fixture.json_id "1") ]
                eq_refl) as [H _].
    destruct H as (s' & ptrs & Hlist & Hderef & Hcache); [repeat constructor|].
    exists s', ptrs. split; [exact Hlist|].
    destruct ptrs as [|p [|q ptrs]]; try discriminate Hderef.
    injection Hderef as Hp. vm_compute in Hlist. injection Hlist as <- <-.
    split; reflexivity.
  - destruct (C5_List_in_order_and_short_circuit fixture.backend fixture.codec
                (fixture.store [ fixture.kv "/apisix/routes/1" "{}";
                                 fixture.kv "/apisix/routes/2" "";
                                 fixture.kv "/apisix/routes/3" "{}" ]
                               fixture.route)
                None
                (fixture.server [ fixture.kv "/apisix/routes/1" "{}";
                                  fixture.kv "/apisix/routes/2" "";
                                  fixture.kv "/apisix/routes/3" "{}" ])
                [ fixture.entry "/apisix/routes/1" "{}";
                  fixture.entry "/apisix/routes/2" "";
                  fixture.entry "/apisix/routes/3" "{}" ]
                eq_refl) as [_ H].
    destruct (H [ fixture.entry "/apisix/routes/1" "{}" ]
                (fixture.entry "/apisix/routes/2" "")
                [ fixture.entry "/apisix/routes/3" "{}" ]
                "unexpected end of JSON input" eq_refl)
      as (s1 & ptrs & Hlist & Hheap & _ & _); [repeat constructor | reflexivity |].
    exists s1. split; [exact Hlist|].
    split; [by rewrite Hheap|].
    vm_compute in Hlist. injection Hlist as <-. reflexivity.
Defined.

(** ** StringToObjPtr *)

Lemma FromatKey_identifier (key prefix : string) :
  (FromatKey key prefix).2
  = if bool_decide (2 <= length (segments (TrimPrefix key prefix)))
    then last_segment key else "".
Proof.
  unfold FromatKey. destruct (segments (TrimPrefix key prefix)) as [|a [|b l]]; reflexivity.
Qed.

Lemma backfill_empty_ID (prefix key : string) (obj : entity.Object) (info : entity.BaseInfo) :
  entity.Info obj = Some info ->
  entity.ID info = "" ->
  let id := (FromatKey key prefix).2 in
  entity.Info (GenericStore.backfill prefix key obj) = Some (entity.with_ID info id)
  /\ (id = "" -> GenericStore.backfill prefix key obj = obj)
  /\ (id <> "" ->
      GenericStore.backfill prefix key obj
      = entity.with_info obj (entity.with_ID info id)).
Proof.
  intros Hinfo Hid id. subst id. unfold GenericStore.backfill. rewrite Hinfo, Hid. simpl.
  destruct (FromatKey key prefix) as [[typ pre] id]. simpl.
  destruct (String.eqb id "") eqn:He; simpl.
  - apply String.eqb_eq in He. subst id. rewrite Hinfo.
    destruct info as [i c u]. simpl in Hid. subst i.
    split; [reflexivity|]. split; [reflexivity | congruence].
  - apply String.eqb_neq in He.
    split; [reflexivity|]. split; [congruence | reflexivity].
Qed.

(** C6 (as amended).  When [raw] decodes to an object that holds base
    information with an empty identifier (as the encoding of an object
    without identifier does), [StringToObjPtr] returns a fresh pointer to
    that object with its identifier set to the one [FromatKey] derives from
    the path, the object being left as decoded when the derived identifier
    is empty.  The identifier is thus the last segment of the path when the
    path has at least two meaningful segments after the prefix, and stays
    empty when it has fewer. *)
Theorem C6_identifier_from_path {S : Type} (codec : entity.Codec)
    (s : GenericStore.t S) (raw path : string) (obj : entity.Object)
    (info : entity.BaseInfo) :
  GenericStore.decode codec raw (GenericStore.ObjType (GenericStore.opt s)) = inr obj ->
  entity.Info obj = Some info ->
  entity.ID info = "" ->
  let prefix := GenericStore.Prefix (GenericStore.opt s) in
  let id := (FromatKey path prefix).2 in
  exists obj',
    GenericStore.StringToObjPtr codec s raw path
    = (GenericStore.set_heap s (GenericStore.heap s ++ [ obj' ]),
       Ok (length (GenericStore.heap s)))
    /\ entity.Info obj' = Some (entity.with_ID info id)
    /\ (id = "" -> obj' = obj)
    /\ (id <> "" -> obj' = entity.with_info obj (entity.with_ID info id))
    /\ (2 <= length (segments (TrimPrefix path prefix)) ->
        entity.ID <$> entity.Info obj' = Some (last_segment path))
    /\ (length (segments (TrimPrefix path prefix)) < 2 ->
        entity.ID <$> entity.Info obj' = Some "").
Proof.
  intros Hdec Hinfo Hid prefix id.
  destruct (backfill_empty_ID prefix path obj info Hinfo Hid) as (Hi & Hempty & Hset).
  exists (GenericStore.backfill prefix path obj).
  split; [unfold GenericStore.StringToObjPtr; by rewrite Hdec|].
  split; [exact Hi|]. split; [exact Hempty|]. split; [exact Hset|].
  rewrite Hi. simpl. rewrite FromatKey_identifier.
  split; intros Hlen.
  - by rewrite bool_decide_eq_true_2.
  - rewrite bool_decide_eq_false_2; [reflexivity | lia].
Qed.

(** The encoding of a route without identifier, decoded at the path of the
    routes directory itself: one meaningful segment follows the prefix, so
    the identifier stays empty, while the last segment of the path is
    [routes]. *)
Lemma C6_counterexample_short_path :
  let O := fixture.with_Fields fixture.route "{}" in
  let r := GenericStore.StringToObjPtr fixture.codec (fixture.store [] fixture.route)
             "{}" "/apisix/routes" in
  GenericStore.encode fixture.codec O = inr "{}"
  /\ snd r = Ok 0%nat
  /\ GenericStore.heap (fst r) !! 0%nat = Some O
  /\ entity.ID <$> entity.Info O = Some ""
  /\ last_segment "/apisix/routes" = "routes".
Proof. vm_compute. done. Qed.

Lemma C6_witness :
  exists obj',
    GenericStore.StringToObjPtr fixture.codec (fixture.store [] fixture.route)
      "{}" "/apisix/routes/1"
    = (GenericStore.set_heap (fixture.store [] fixture.route) [ obj' ], Ok 0%nat)
    /\ entity.ID <$> entity.Info obj' = Some "1".
Proof.
  destruct (C6_identifier_from_path fixture.codec (fixture.store [] fixture.route)
              "{}" "/apisix/routes/1" (fixture.with_Fields fixture.route "{}")
              {| entity.ID := ""; entity.CreateTime := 0; entity.UpdateTime := 0 |}
              eq_refl eq_refl eq_refl)
    as (obj' & Hcall & _ & _ & _ & Hlast & _).
  exists obj'. split; [exact Hcall|].
  apply Hlast. vm_compute. lia.
Defined.

(** * Further properties *)

(** ** The adapter over any client *)

(** X1.  A successful [List] returns the pairs of the response in their
    order: all of them, or all but the first when the first is the
    directory marker; nothing else is dropped, added or reordered. *)
Theorem List_keeps_order {S : Type} (client : clientv3.Client S) (s : S)
    (prefix : string) (msg : utils.Message) :
  snd (EtcdV3.List client s prefix) = Ok msg ->
  exists resp kv0 n,
    snd (clientv3.Get client s prefix true) = inr resp
    /\ head (clientv3.Kvs resp) = Some kv0
    /\ msg = map to_entry (drop n (clientv3.Kvs resp))
    /\ n = (if bytes_Equal (clientv3.Value kv0) EtcdV3.DirPlaceholder then 1 else 0)%nat
    /\ length msg = (length (clientv3.Kvs resp) - n)%nat.
Proof.
  intros H. apply List_Ok_inv in H as (resp & kv0 & Hget & Hkv0 & ->).
  exists resp, kv0, (if bytes_Equal (clientv3.Value kv0) EtcdV3.DirPlaceholder then 1 else 0)%nat.
  split; [exact Hget|]. split; [by rewrite head_lookup|].
  destruct (bytes_Equal _ _); simpl.
  - split; [reflexivity|]. split; [reflexivity|]. by rewrite length_map, length_drop.
  - rewrite drop_0. split; [reflexivity|]. split; [reflexivity|].
    rewrite length_map. lia.
Qed.

Lemma List_keeps_order_witness :
  exists resp kv0 n,
    snd (clientv3.Get kvserver.client
           (fixture.server [ fixture.kv "/apisix/routes" "init_dir";
                             fixture.kv "/apisix/routes/1" "{}";
                             fixture.kv "/apisix/routes/2" "{}" ])
           "/apisix/routes" true) = inr resp
    /\ head (clientv3.Kvs resp) = Some kv0
    /\ [ fixture.entry "/apisix/routes/1" "{}"; fixture.entry "/apisix/routes/2" "{}" ]
       = map to_entry (drop n (clientv3.Kvs resp))
    /\ n = (if bytes_Equal (clientv3.Value kv0) EtcdV3.DirPlaceholder then 1 else 0)%nat
    /\ length [ fixture.entry "/apisix/routes/1" "{}"; fixture.entry "/apisix/routes/2" "{}" ]
       = (length (clientv3.Kvs resp) - n)%nat.
Proof.
  apply (List_keeps_order kvserver.client
           (fixture.server [ fixture.kv "/apisix/routes" "init_dir";
                             fixture.kv "/apisix/routes/1" "{}";
                             fixture.kv "/apisix/routes/2" "{}" ])
           "/apisix/routes").
  reflexivity.
Defined.

(** X2.  A prefix under which the backend holds the directory marker and
    nothing else lists as the empty message, not as a not-found error; the
    store then returns no object and leaves its heap and cache as they
    were. *)
Theorem List_of_bare_directory {S : Type} (client : clientv3.Client S)
    (EventAdd EventDelete : string)
    (validate : string -> string -> string -> option error) (codec : entity.Codec)
    (s : GenericStore.t S) (filter : option (entity.Object -> bool))
    (stg' : S) (resp : clientv3.GetResponse) (kv0 : clientv3.KeyValue) :
  clientv3.Get client (GenericStore.Stg s) (GenericStore.BasePath (GenericStore.opt s)) true
  = (stg', inr resp) ->
  clientv3.Count resp <> 0%Z ->
  clientv3.Kvs resp = [ kv0 ] ->
  clientv3.Value kv0 = EtcdV3.DirPlaceholder ->
  EtcdV3.List client (GenericStore.Stg s) (GenericStore.BasePath (GenericStore.opt s))
  = (stg', Ok [])
  /\ GenericStore.List (etcd_backend client EventAdd EventDelete validate) codec s filter
     = (GenericStore.called s
          (GenericStore.CallList (GenericStore.BasePath (GenericStore.opt s))) stg',
        Ok []).
Proof.
  intros Hget Hcount Hkvs Hval.
  assert (Hlist : EtcdV3.List client (GenericStore.Stg s)
                    (GenericStore.BasePath (GenericStore.opt s)) = (stg', Ok [])).
  { unfold EtcdV3.List. rewrite Hget. apply Z.eqb_neq in Hcount. rewrite Hcount, Hkvs.
    simpl. rewrite Hval. reflexivity. }
  split; [exact Hlist|].
  unfold GenericStore.List. simpl. by rewrite Hlist.
Qed.

Lemma List_of_bare_directory_witness :
  GenericStore.List fixture.backend fixture.codec
    (fixture.store [ fixture.kv "/apisix/routes" "init_dir" ] fixture.route) None
  = (GenericStore.called
       (fixture.store [ fixture.kv "/apisix/routes" "init_dir" ] fixture.route)
       (GenericStore.CallList "/apisix/routes")
       (fixture.server [ fixture.kv "/apisix/routes" "init_dir" ]),
     Ok []).
Proof.
  refine (proj2 (List_of_bare_directory kvserver.client "add" "delete" fixture.validate
                   fixture.codec
                   (fixture.store [ fixture.kv "/apisix/routes" "init_dir" ] fixture.route)
                   None
                   (fixture.server [ fixture.kv "/apisix/routes" "init_dir" ])
                   {| clientv3.Count := 1;
                      clientv3.Kvs := [ fixture.kv "/apisix/routes" "init_dir" ] |}
                   (fixture.kv "/apisix/routes" "init_dir") _ _ _ _));
    [reflexivity | discriminate | reflexivity | reflexivity].
Defined.

(** ** Watch *)

Section WatchFacts.
Context {S : Type} (client : clientv3.Client S).
Variables (EventAdd EventDelete : string).
Variable validate : string -> string -> string -> option error.

Lemma watch_item_Canceled (se : event.StoreEvent) (ev : clientv3.Event) :
  event.Canceled (EtcdV3.watch_item EventAdd EventDelete validate se ev)
  = event.Canceled se.
Proof.
  unfold EtcdV3.watch_item, event.Add.
  destruct (bytes_Equal _ _); [reflexivity|].
  by destruct (validate _ _ _).
Qed.

Lemma watch_item_Events (se : event.StoreEvent) (ev : clientv3.Event) :
  event.Events (EtcdV3.watch_item EventAdd EventDelete validate se ev)
  = event.Events se
    ++ (if survives EventAdd EventDelete validate ev
        then [ item_of EventAdd EventDelete ev ] else []).
Proof.
  unfold EtcdV3.watch_item, event.Add, survives, item_of, typ_of.
  destruct (bytes_Equal _ _); simpl; [by rewrite app_nil_r|].
  destruct (validate _ _ _); simpl; [by rewrite app_nil_r | reflexivity].
Qed.

Lemma watch_fold (evs : list clientv3.Event) (se : event.StoreEvent) :
  event.Canceled (fold_left (EtcdV3.watch_item EventAdd EventDelete validate) evs se)
  = event.Canceled se
  /\ event.Events (fold_left (EtcdV3.watch_item EventAdd EventDelete validate) evs se)
     = event.Events se
       ++ map (item_of EventAdd EventDelete)
              (List.filter (survives EventAdd EventDelete validate) evs).
Proof.
  revert se. induction evs as [|ev evs IH]; intros se; simpl.
  - by rewrite app_nil_r.
  - destruct (IH (EtcdV3.watch_item EventAdd EventDelete validate se ev)) as [Hc He].
    rewrite Hc, He, watch_item_Canceled, watch_item_Events.
    split; [reflexivity|].
    destruct (survives EventAdd EventDelete validate ev); simpl.
    + by rewrite <- app_assoc.
    + by rewrite app_nil_r.
Qed.

End WatchFacts.

(** X3.  [Watch] sends one event per batch of the backend, in order, and
    each event carries the cancellation flag of its batch. *)
Theorem Watch_one_event_per_batch {S : Type} (client : clientv3.Client S)
    (EventAdd EventDelete : string)
    (validate : string -> string -> string -> option error) (s : S) (key : string) :
  length (EtcdV3.Watch client EventAdd EventDelete validate s key)
  = length (clientv3.Watch client s key)
  /\ map event.Canceled (EtcdV3.Watch client EventAdd EventDelete validate s key)
     = map clientv3.Canceled (clientv3.Watch client s key).
Proof.
  unfold EtcdV3.Watch. split; [by rewrite length_map|].
  rewrite map_map. apply map_ext. intros batch.
  unfold EtcdV3.watch_batch.
  by destruct (watch_fold EventAdd EventDelete validate (clientv3.Events batch)
                 (event.NewStoreEvent (clientv3.Canceled batch))) as [-> _].
Qed.

(** X4.  The items of an event are the notifications of its batch that are
    no directory marker and are not refused, in the order of the batch, with
    key and value unchanged, a put as an add and a delete as a delete.  A
    refused notification is skipped alone: those after it are still
    delivered. *)
Theorem Watch_items {S : Type} (client : clientv3.Client S)
    (EventAdd EventDelete : string)
    (validate : string -> string -> string -> option error) (s : S) (key : string) :
  map event.Events (EtcdV3.Watch client EventAdd EventDelete validate s key)
  = map (fun batch =>
           map (item_of EventAdd EventDelete)
               (List.filter (survives EventAdd EventDelete validate)
                            (clientv3.Events batch)))
        (clientv3.Watch client s key).
Proof.
  unfold EtcdV3.Watch. rewrite map_map. apply map_ext. intros batch.
  unfold EtcdV3.watch_batch.
  by destruct (watch_fold EventAdd EventDelete validate (clientv3.Events batch)
                 (event.NewStoreEvent (clientv3.Canceled batch))) as [_ ->].
Qed.

(** A notification of an unknown type is refused by the sample validation;
    the delete after it is delivered all the same. *)
Example Watch_skips_refused_item :
  EtcdV3.Watch kvserver.client "add" "delete" fixture.validate
    (fixture.feeding
       [ {| clientv3.Canceled := true;
            clientv3.Events :=
              [ {| clientv3.Type_ := 7; clientv3.Kv := fixture.kv "/apisix/routes/1" "{}" |};
                {| clientv3.Type_ := clientv3.EventTypeDelete;
                   clientv3.Kv := fixture.kv "/apisix/routes/2" "" |} ] |} ])
    "/apisix/routes"
  = [ {| event.Canceled := true;
         event.Events :=
           [ {| event.Op := "delete"; event.Key := "/apisix/routes/2";
                event.Value := "" |} ] |} ].
Proof. reflexivity. Qed.

(** ** The adapter over the reference server *)

Lemma compare_Gt_neq (k k' : string) : String.compare k k' = Gt -> String.eqb k k' = false.
Proof.
  intros H. apply String.eqb_neq. intros ->. rewrite compare_refl in H. discriminate.
Qed.

(** After a put the exact-key range starts with the pair written. *)
Lemma range_put_head (k v : string) (d : list clientv3.KeyValue) :
  head (kvserver.range false k (kvserver.put k v d)) = Some (fixture.kv k v).
Proof.
  unfold kvserver.range.
  induction d as [|x d IH]; simpl.
  - by rewrite String.eqb_refl.
  - destruct (String.compare k (clientv3.Key x)) eqn:Hc; simpl.
    + by rewrite String.eqb_refl.
    + by rewrite String.eqb_refl.
    + by rewrite (compare_Gt_neq _ _ Hc).
Qed.

Lemma range_erase (withPrefix : bool) (k : string) (d : list clientv3.KeyValue) :
  kvserver.range withPrefix k (kvserver.erase withPrefix k d) = [].
Proof.
  unfold kvserver.range, kvserver.erase.
  induction d as [|x d IH]; simpl; [reflexivity|].
  destruct (kvserver.selects withPrefix k x) eqn:Hx; simpl; [exact IH|].
  by rewrite Hx.
Qed.

Lemma range_key_erase_prefix (p k : string) (d : list clientv3.KeyValue) :
  String.prefix p k = true ->
  kvserver.range false k (kvserver.erase true p d) = [].
Proof.
  intros Hp. unfold kvserver.range, kvserver.erase.
  induction d as [|x d IH]; simpl; [reflexivity|].
  destruct (String.prefix p (clientv3.Key x)) eqn:Hx; simpl; [exact IH|].
  destruct (String.eqb k (clientv3.Key x)) eqn:Hk; [|exact IH].
  apply String.eqb_eq in Hk. subst k. congruence.
Qed.

(** X5.  Round trip through the backend: when the transport answers both
    calls, [Get] after [Update] (or [Create]) of the same key returns the
    value written, whatever the server held before. *)
Theorem Get_after_write (s : kvserver.state) (key value : string) :
  kvserver.failure s = None ->
  kvserver.failure (fst (EtcdV3.Update kvserver.client s key value)) = None ->
  snd (EtcdV3.Update kvserver.client s key value) = None
  /\ snd (EtcdV3.Get kvserver.client
            (fst (EtcdV3.Update kvserver.client s key value)) key) = Ok value
  /\ snd (EtcdV3.Create kvserver.client s key value) = None
  /\ snd (EtcdV3.Get kvserver.client
            (fst (EtcdV3.Create kvserver.client s key value)) key) = Ok value.
Proof.
  unfold EtcdV3.Update, EtcdV3.Create. simpl. unfold kvserver.Put.
  intros Hok. rewrite Hok. simpl. intros Hok'.
  assert (Hget : snd (EtcdV3.Get kvserver.client
                        (kvserver.advance s (kvserver.put key value (kvserver.data s))) key)
                 = Ok value).
  { unfold EtcdV3.Get. simpl. unfold kvserver.Get. rewrite Hok'. simpl.
    pose proof (range_put_head key value (kvserver.data s)) as Hhead.
    destruct (kvserver.range false key (kvserver.put key value (kvserver.data s)))
      as [|kv kvs]; [discriminate|].
    simpl in Hhead. injection Hhead as ->. reflexivity. }
  by repeat split.
Qed.

Lemma Get_after_write_witness :
  snd (EtcdV3.Get kvserver.client
         (fst (EtcdV3.Update kvserver.client
                 (fixture.server [ fixture.kv "/apisix/routes/1" "old" ])
                 "/apisix/routes/1" "new"))
         "/apisix/routes/1")
  = Ok "new".
Proof.
  refine (proj1 (proj2 (Get_after_write
                          (fixture.server [ fixture.kv "/apisix/routes/1" "old" ])
                          "/apisix/routes/1" "new" _ _))); reflexivity.
Defined.

(** X6.  [Delete] is not idempotent: when the transport answers, after a
    [Delete] of a key (whether it found the key or not) [Get] on the key is
    not found, and a second [Delete] returns the not-found error. *)
Theorem Delete_then_not_found (s : kvserver.state) (key : string) :
  kvserver.failure s = None ->
  kvserver.failure (fst (EtcdV3.Delete kvserver.client s key)) = None ->
  snd (EtcdV3.Get kvserver.client (fst (EtcdV3.Delete kvserver.client s key)) key)
  = Err ("etcd get key[" +:+ key +:+ "] is not found")
  /\ snd (EtcdV3.Delete kvserver.client (fst (EtcdV3.Delete kvserver.client s key)) key)
     = Some ("etcd delete key[" +:+ key +:+ "] is not found").
Proof.
  intros Hok.
  assert (Hs1 : fst (EtcdV3.Delete kvserver.client s key)
                = kvserver.advance s (kvserver.erase false key (kvserver.data s))).
  { unfold EtcdV3.Delete. simpl. unfold kvserver.Delete. rewrite Hok. simpl.
    by destruct (_ =? _)%Z. }
  rewrite Hs1. intros Hok'.
  unfold EtcdV3.Get, EtcdV3.Delete. simpl. unfold kvserver.Get, kvserver.Delete.
  rewrite Hok'. simpl. by rewrite range_erase.
Qed.

Lemma Delete_then_not_found_witness :
  snd (EtcdV3.Delete kvserver.client
         (fst (EtcdV3.Delete kvserver.client
                 (fixture.server [ fixture.kv "/apisix/routes/1" "{}" ])
                 "/apisix/routes/1"))
         "/apisix/routes/1")
  = Some "etcd delete key[/apisix/routes/1] is not found".
Proof.
  refine (proj2 (Delete_then_not_found
                   (fixture.server [ fixture.kv "/apisix/routes/1" "{}" ])
                   "/apisix/routes/1" _ _)); reflexivity.
Defined.

(** X7.  When the transport answers, after [DeletePrefix] of a prefix
    [List] on the prefix is not found, and so is [Get] on every key under
    it. *)
Theorem DeletePrefix_then_not_found (s : kvserver.state) (prefix key : string) :
  kvserver.failure s = None ->
  kvserver.failure (fst (EtcdV3.DeletePrefix kvserver.client s prefix)) = None ->
  String.prefix prefix key = true ->
  snd (EtcdV3.List kvserver.client
         (fst (EtcdV3.DeletePrefix kvserver.client s prefix)) prefix)
  = Err ("etcd list prefix[" +:+ prefix +:+ "] is not found")
  /\ snd (EtcdV3.Get kvserver.client
            (fst (EtcdV3.DeletePrefix kvserver.client s prefix)) key)
     = Err ("etcd get key[" +:+ key +:+ "] is not found").
Proof.
  intros Hok.
  assert (Hs1 : fst (EtcdV3.DeletePrefix kvserver.client s prefix)
                = kvserver.advance s (kvserver.erase true prefix (kvserver.data s))).
  { unfold EtcdV3.DeletePrefix. simpl. unfold kvserver.Delete. rewrite Hok. simpl.
    by destruct (_ =? _)%Z. }
  rewrite Hs1. intros Hok' Hp.
  unfold EtcdV3.Get, EtcdV3.List. simpl. unfold kvserver.Get.
  rewrite Hok'. simpl. by rewrite range_erase, (range_key_erase_prefix _ _ _ Hp).
Qed.

Lemma DeletePrefix_then_not_found_witness :
  snd (EtcdV3.Get kvserver.client
         (fst (EtcdV3.DeletePrefix kvserver.client
                 (fixture.server [ fixture.kv "/apisix/routes" "init_dir";
                                   fixture.kv "/apisix/routes/1" "{}" ])
                 "/apisix/routes"))
         "/apisix/routes/1")
  = Err "etcd get key[/apisix/routes/1] is not found".
Proof.
  refine (proj2 (DeletePrefix_then_not_found
                   (fixture.server [ fixture.kv "/apisix/routes" "init_dir";
                                     fixture.kv "/apisix/routes/1" "{}" ])
                   "/apisix/routes" "/apisix/routes/1" _ _ _)); reflexivity.
Defined.

(** ** Construction of the store *)

(** X8.  [NewGenericStore] succeeds exactly when the base path is not empty
    and the object type is a struct or a pointer to a struct: one level of
    pointer is unwrapped, so a pointer to a pointer is refused.  It never
    panics, and the store it returns has an empty cache and heap, has made
    no backend call, and reports the base path it was given. *)
Theorem NewGenericStore_cases {S : Type} (typ : string)
    (opt : construct.GenericStoreOption) (stg : S) :
  ((exists st, construct.NewGenericStore typ opt stg = Ok st)
   <-> construct.BasePath opt <> "" /\
       exists zero,
         construct.ObjType opt = Some (reflect.StructOf zero) \/
         construct.ObjType opt = Some (reflect.PtrTo (reflect.StructOf zero)))
  /\ construct.NewGenericStore typ opt stg <> Panic
  /\ (forall st,
        construct.NewGenericStore typ opt stg = Ok st ->
        GenericStore.cache st = ∅ /\ GenericStore.heap st = [] /\
        GenericStore.calls st = [] /\ GenericStore.Stg st = stg /\
        GenericStore.BasePath_ st = construct.BasePath opt).
Proof.
  unfold construct.NewGenericStore.
  destruct (String.eqb (construct.BasePath opt) "") eqn:Hb.
  - apply String.eqb_eq in Hb. split; [|split]; [|discriminate|discriminate].
    split; [intros [st H]; discriminate | intros [Hne _]; contradiction].
  - apply String.eqb_neq in Hb.
    destruct (construct.ObjType opt) as [[zero|[zero|inner|]|]|]; simpl.
    + split; [|split]; [|discriminate|].
      * split; [intros _; split; [exact Hb | exists zero; by left] | eauto].
      * intros st [= <-]. by repeat split.
    + split; [|split]; [|discriminate|].
      * split; [intros _; split; [exact Hb | exists zero; by right] | eauto].
      * intros st [= <-]. by repeat split.
    + split; [|split]; [|discriminate|discriminate].
      split; [intros [st H]; discriminate | intros [_ [z [H|H]]]; discriminate].
    + split; [|split]; [|discriminate|discriminate].
      split; [intros [st H]; discriminate | intros [_ [z [H|H]]]; discriminate].
    + split; [|split]; [|discriminate|discriminate].
      split; [intros [st H]; discriminate | intros [_ [z [H|H]]]; discriminate].
    + split; [|split]; [|discriminate|discriminate].
      split; [intros [st H]; discriminate | intros [_ [z [H|H]]]; discriminate].
Qed.

Lemma NewGenericStore_cases_witness :
  (exists st,
     construct.NewGenericStore "routes"
       (sample.option_of (Some (reflect.PtrTo (reflect.StructOf fixture.route))))
       (fixture.server []) = Ok st)
  /\ construct.NewGenericStore "routes"
       (sample.option_of (Some (reflect.PtrTo (reflect.PtrTo (reflect.StructOf fixture.route)))))
       (fixture.server [])
     = Err "object type is invalid".
Proof.
  split; [|reflexivity].
  apply (proj1 (NewGenericStore_cases "routes"
                  (sample.option_of (Some (reflect.PtrTo (reflect.StructOf fixture.route))))
                  (fixture.server []))).
  split; [discriminate|]. exists fixture.route. by right.
Defined.

(** ** The cache *)

(** X9.  [Store] returns the object that was cached with [true], or, on an
    absent key, the new object itself with [false]; it leaves every other
    key and the heap as they were. *)
Theorem Store_result_and_frame {S : Type} (s : GenericStore.t S) (k : string)
    (v : GenericStore.Ptr) :
  snd (GenericStore.Store s k v)
  = (default v (GenericStore.cache s !! k),
     bool_decide (is_Some (GenericStore.cache s !! k)))
  /\ (forall k', k' <> k ->
        GenericStore.cache (fst (GenericStore.Store s k v)) !! k'
        = GenericStore.cache s !! k')
  /\ GenericStore.heap (fst (GenericStore.Store s k v)) = GenericStore.heap s.
Proof.
  split; [|split].
  - unfold GenericStore.Store, syncmap.LoadOrStore.
    destruct (GenericStore.cache s !! k); reflexivity.
  - intros k' Hne. rewrite Store_cache. by apply lookup_insert_ne.
  - apply Store_frame.
Qed.

Lemma Store_result_and_frame_witness :
  GenericStore.cache
    (fst (GenericStore.Store (fixture.caching fixture.route []) "/apisix/routes/2" 5))
  !! "/apisix/routes/1"
  = Some 0%nat.
Proof.
  rewrite (proj1 (proj2 (Store_result_and_frame (fixture.caching fixture.route [])
                           "/apisix/routes/2" 5)) "/apisix/routes/1");
    [reflexivity | discriminate].
Defined.

Lemma Delete_cache {S : Type} (s : GenericStore.t S) (k : string) :
  GenericStore.cache (fst (GenericStore.Delete s k)) = delete k (GenericStore.cache s).
Proof.
  unfold GenericStore.Delete, syncmap.LoadAndDelete.
  destruct (GenericStore.cache s !! k) eqn:Hk; simpl; [reflexivity|].
  symmetry. by apply delete_id.
Qed.

(** X10.  [Delete] on a key that is not cached returns [(none, false)] and
    changes nothing; on a key absent before, [Delete] after [Store] restores
    the cache; and [Delete] never touches another key. *)
Theorem Delete_absent_and_undo {S : Type} (s : GenericStore.t S) (k : string)
    (v : GenericStore.Ptr) :
  (GenericStore.cache s !! k = None ->
   snd (GenericStore.Delete s k) = (None, false)
   /\ GenericStore.cache (fst (GenericStore.Delete s k)) = GenericStore.cache s
   /\ GenericStore.cache (fst (GenericStore.Delete (fst (GenericStore.Store s k v)) k))
      = GenericStore.cache s)
  /\ (forall k', k' <> k ->
        GenericStore.cache (fst (GenericStore.Delete s k)) !! k'
        = GenericStore.cache s !! k').
Proof.
  split.
  - intros Habsent. rewrite !Delete_cache, Store_cache.
    split; [|split].
    + unfold GenericStore.Delete, syncmap.LoadAndDelete. by rewrite Habsent.
    + by apply delete_id.
    + by apply delete_insert_id.
  - intros k' Hne. rewrite Delete_cache. by apply lookup_delete_ne.
Qed.

Lemma Delete_absent_and_undo_witness :
  snd (GenericStore.Delete (fixture.caching fixture.route []) "/apisix/routes/2")
  = (None, false).
Proof.
  apply (proj1 (Delete_absent_and_undo (fixture.caching fixture.route [])
                  "/apisix/routes/2" 0)).
  reflexivity.
Defined.

(** ** Decoding *)



(** X12.  The path never overrides the payload: an object that decodes
    with a non-empty identifier keeps it, and an object without base
    information is stored exactly as decoded. *)
Theorem StringToObjPtr_keeps_identifier {S : Type} (codec : entity.Codec)
    (s : GenericStore.t S) (raw key : string) (obj : entity.Object) :
  GenericStore.decode codec raw (GenericStore.ObjType (GenericStore.opt s)) = inr obj ->
  (entity.Info obj = None \/
   exists info, entity.Info obj = Some info /\ entity.ID info <> "") ->
  GenericStore.StringToObjPtr codec s raw key
  = (GenericStore.set_heap s (GenericStore.heap s ++ [ obj ]),
     Ok (length (GenericStore.heap s))).
Proof.
  intros Hdec Hid. unfold GenericStore.StringToObjPtr. rewrite Hdec.
  assert (Hb : GenericStore.backfill (GenericStore.Prefix (GenericStore.opt s)) key obj = obj).
  { unfold GenericStore.backfill. destruct Hid as [-> | (info & -> & Hne)]; [reflexivity|].
    apply String.eqb_neq in Hne. by rewrite Hne. }
  by rewrite Hb.
Qed.

Lemma StringToObjPtr_keeps_identifier_witness :
  GenericStore.StringToObjPtr fixture.codec (fixture.store [] fixture.bare) "{}"
    "/apisix/routes/9"
  = (GenericStore.set_heap (fixture.store [] fixture.bare)
       [ fixture.with_Fields fixture.bare "{}" ], Ok 0%nat).
Proof.
  apply (StringToObjPtr_keeps_identifier fixture.codec (fixture.store [] fixture.bare)
           "{}" "/apisix/routes/9" (fixture.with_Fields fixture.bare "{}")).
  - reflexivity.
  - by left.
Defined.

(** ** Listing into the cache *)

Section ListInvariant.
Context {S : Type} (codec : entity.Codec) (filter : option (entity.Object -> bool)).
Implicit Types (s : GenericStore.t S) (ret : utils.Message).

(** What the loop keeps, whatever its outcome. *)
Lemma List_loop_inv ret : forall s (acc : list GenericStore.Ptr) s' r,
  GenericStore.List_loop codec filter ret s acc = (s', r) ->
  GenericStore.heap s `prefix_of` GenericStore.heap s'
  /\ dom (GenericStore.cache s) ⊆ dom (GenericStore.cache s')
  /\ GenericStore.opt s' = GenericStore.opt s
  /\ GenericStore.Stg s' = GenericStore.Stg s
  /\ GenericStore.calls s' = GenericStore.calls s
  /\ r <> Panic
  /\ forall ptrs, r = Ok ptrs ->
       exists new,
         ptrs = acc ++ new
         /\ length new <= length ret
         /\ (filter = None -> length new = length ret)
         /\ Forall (fun p => length (GenericStore.heap s) <= p
                             /\ p < length (GenericStore.heap s')) new
         /\ NoDup new.
Proof.
  induction ret as [|e ret IH]; intros s acc s' r Hloop; simpl in Hloop.
  - injection Hloop as <- <-. repeat split; try done.
    intros ptrs [= <-]. exists []. rewrite app_nil_r.
    repeat split; try done; constructor.
  - unfold GenericStore.StringToObjPtr in Hloop.
    destruct (GenericStore.decode codec _ _) as [err|obj].
    { injection Hloop as <- <-. repeat split; try done. }
    set (o' := GenericStore.backfill (GenericStore.Prefix (GenericStore.opt s))
                 (utils.Key e) obj) in *.
    set (s1 := GenericStore.set_heap s (GenericStore.heap s ++ [ o' ])) in *.
    set (p := length (GenericStore.heap s)) in *.
    destruct (GenericStore.accepts filter s1 p) eqn:Hacc.
    + destruct (Store_frame s1 (utils.Key e) p) as (Hh2 & Ho2 & Hs2 & Hc2).
      pose proof (Store_cache s1 (utils.Key e) p) as Hm2.
      apply IH in Hloop as (Hpre & Hdom & Hopt & Hstg & Hcalls & Hnp & Hptrs).
      rewrite Hh2 in Hpre. rewrite Hm2 in Hdom. rewrite Ho2 in Hopt.
      rewrite Hs2 in Hstg. rewrite Hc2 in Hcalls.
      assert (Hlen : p < length (GenericStore.heap s')).
      { apply prefix_length in Hpre. simpl in Hpre. rewrite length_app in Hpre.
        simpl in Hpre. subst p. lia. }
      split; [etrans; [|exact Hpre]; by apply prefix_app_r|].
      split; [etrans; [|exact Hdom]; simpl; apply dom_insert_subseteq|].
      repeat (split; [done|]).
      intros ptrs Hr. destruct (Hptrs ptrs Hr) as (new & -> & Hn & Hnone & Hall & Hnd).
      rewrite Hh2 in Hall. simpl in Hall. rewrite length_app in Hall. simpl in Hall.
      exists (p :: new). split; [by rewrite <- app_assoc|].
      split; [simpl; lia|]. split; [intros Hf; simpl; by rewrite (Hnone Hf)|].
      split.
      * constructor; [subst p; lia|].
        eapply Forall_impl; [exact Hall|]. simpl. intros q Hq. subst p. lia.
      * constructor; [|exact Hnd].
        intros Hin. rewrite Forall_forall in Hall. apply Hall in Hin. subst p. lia.
    + apply IH in Hloop as (Hpre & Hdom & Hopt & Hstg & Hcalls & Hnp & Hptrs).
      split; [etrans; [|exact Hpre]; by apply prefix_app_r|].
      repeat (split; [done|]).
      intros ptrs Hr. destruct (Hptrs ptrs Hr) as (new & -> & Hn & Hnone & Hall & Hnd).
      simpl in Hall. rewrite length_app in Hall. simpl in Hall.
      exists new. split; [reflexivity|]. split; [simpl; lia|].
      split; [intros ->; simpl in Hacc; discriminate|].
      split; [|exact Hnd].
      eapply Forall_impl; [exact Hall|]. simpl. intros q Hq. lia.
Qed.

End ListInvariant.

(** X13.  [List] never evicts and never overwrites an object: whatever its
    outcome, every object that existed is unchanged and every key that was
    cached is still cached; the backend has been asked exactly once, for
    the base path. *)
Theorem List_never_evicts {S : Type} (stg : GenericStore.Interface.t S)
    (codec : entity.Codec) (s : GenericStore.t S)
    (filter : option (entity.Object -> bool)) :
  let r := GenericStore.List stg codec s filter in
  (forall q o, GenericStore.heap s !! q = Some o ->
               GenericStore.heap (fst r) !! q = Some o)
  /\ (forall k, is_Some (GenericStore.cache s !! k) ->
                is_Some (GenericStore.cache (fst r) !! k))
  /\ GenericStore.calls (fst r)
     = GenericStore.calls s
       ++ [ GenericStore.CallList (GenericStore.BasePath (GenericStore.opt s)) ]
  /\ GenericStore.opt (fst r) = GenericStore.opt s.
Proof.
  intros r. subst r. unfold GenericStore.List.
  destruct (GenericStore.Interface.List stg (GenericStore.Stg s) _) as [stg' [ret|err|]];
    simpl; try (by repeat split).
  destruct (GenericStore.List_loop codec filter ret _ []) as [s' r] eqn:Hloop.
  apply List_loop_inv in Hloop as (Hpre & Hdom & Hopt & _ & Hcalls & _). simpl in *.
  split; [intros q o Hq; by eapply prefix_lookup_Some|].
  split; [|by split].
  intros k Hk. apply elem_of_dom. apply Hdom. by apply elem_of_dom.
Qed.

Lemma List_never_evicts_witness :
  is_Some
    (GenericStore.cache
       (fst (GenericStore.List fixture.backend fixture.codec
               (fixture.caching fixture.route []) None))
     !! "/apisix/routes/1").
Proof.
  apply (proj1 (proj2 (List_never_evicts fixture.backend fixture.codec
                         (fixture.caching fixture.route []) None))).
  vm_compute. eauto.
Defined.



(** ** Pushing node lists *)

(** X15.  [UpdateNodes] never changes the cache mapping, never allocates,
    and touches no object but the one cached at the key.  It makes at most
    one backend call, an [Update] of that key, and it reports success only
    if it made that call. *)
Theorem UpdateNodes_frame {S : Type} (stg : GenericStore.Interface.t S)
    (codec : entity.Codec) (s : GenericStore.t S) (key : string)
    (nodes : list entity.Node) :
  let r := GenericStore.UpdateNodes stg codec s key nodes in
  GenericStore.cache (fst r) = GenericStore.cache s
  /\ length (GenericStore.heap (fst r)) = length (GenericStore.heap s)
  /\ (forall q, GenericStore.cache s !! key <> Some q ->
                GenericStore.heap (fst r) !! q = GenericStore.heap s !! q)
  /\ (GenericStore.calls (fst r) = GenericStore.calls s \/
      exists bs, GenericStore.calls (fst r)
                 = GenericStore.calls s ++ [ GenericStore.CallUpdate key bs ])
  /\ (snd r = None ->
      exists bs, GenericStore.calls (fst r)
                 = GenericStore.calls s ++ [ GenericStore.CallUpdate key bs ]).
Proof.
  intros r. subst r. unfold GenericStore.UpdateNodes, syncmap.Load.
  destruct (String.eqb key ""); [by repeat split; auto|].
  destruct (GenericStore.cache s !! key) as [p|] eqn:Hc; simpl;
    [|by repeat split; auto].
  destruct (GenericStore.heap s !! p) as [o|] eqn:Hh; [|by repeat split; auto].
  destruct (entity.Nodes o); [|by repeat split; auto].
  match goal with |- context [GenericStore.encode codec ?x] =>
    destruct (GenericStore.encode codec x) as [err|bs] end; simpl.
  - split; [reflexivity|]. split; [by rewrite length_insert|].
    split; [intros q Hq; apply list_lookup_insert_ne; congruence|].
    split; [by left | discriminate].
  - destruct (GenericStore.Interface.Update stg (GenericStore.Stg s) key bs) as [stg' res].
    simpl. split; [reflexivity|]. split; [by rewrite length_insert|].
    split; [intros q Hq; apply list_lookup_insert_ne; congruence|].
    split; [right; by exists bs | intros _; by exists bs].
Qed.

Lemma UpdateNodes_frame_witness :
  exists bs,
    GenericStore.calls
      (fst (GenericStore.UpdateNodes fixture.backend fixture.codec
              (fixture.caching (fixture.with_Fields fixture.route "{}") [])
              "/apisix/routes/1" [ fixture.node ]))
    = [] ++ [ GenericStore.CallUpdate "/apisix/routes/1" bs ].
Proof.
  apply (proj2 (proj2 (proj2 (proj2
           (UpdateNodes_frame fixture.backend fixture.codec
              (fixture.caching (fixture.with_Fields fixture.route "{}") [])
              "/apisix/routes/1" [ fixture.node ]))))).
  reflexivity.
Defined.

(** The value written by an [Update] that the server answered is what a
    later answered [Get] of the key reads. *)
Lemma server_Get_after_Update (st : kvserver.state) (key value : string) :
  kvserver.failure st = None ->
  snd (EtcdV3.Update kvserver.client st key value) = None
  /\ (kvserver.failure (fst (EtcdV3.Update kvserver.client st key value)) = None ->
      snd (EtcdV3.Get kvserver.client
             (fst (EtcdV3.Update kvserver.client st key value)) key) = Ok value).
Proof.
  unfold EtcdV3.Update. simpl. unfold kvserver.Put.
  intros Hok. rewrite Hok. simpl. split; [reflexivity|]. intros Hok'.
  unfold EtcdV3.Get. simpl. unfold kvserver.Get. rewrite Hok'. simpl.
  pose proof (range_put_head key value (kvserver.data st)) as Hhead.
  destruct (kvserver.range false key (kvserver.put key value (kvserver.data st)))
    as [|kv kvs]; [discriminate|].
  simpl in Hhead. injection Hhead as ->. reflexivity.
Qed.

(** X16.  Over the etcd adapter, an [UpdateNodes] that passes its checks,
    re-encodes the object and is answered by the server succeeds, and a
    later answered [Get] of the key reads the new encoding: the backend
    holds the object with the new node list. *)
Theorem UpdateNodes_persisted (EventAdd EventDelete : string)
    (validate : string -> string -> string -> option error) (codec : entity.Codec)
    (s : GenericStore.t kvserver.state) (key : string) (nodes : list entity.Node)
    (p : GenericStore.Ptr) (o : entity.Object) (old : list entity.Node) (bs : string) :
  key <> "" ->
  GenericStore.cache s !! key = Some p ->
  GenericStore.heap s !! p = Some o ->
  entity.Nodes o = Some old ->
  GenericStore.encode codec (updated codec o nodes) = inr bs ->
  kvserver.failure (GenericStore.Stg s) = None ->
  let r := GenericStore.UpdateNodes
             (etcd_backend kvserver.client EventAdd EventDelete validate)
             codec s key nodes in
  snd r = None
  /\ (kvserver.failure (GenericStore.Stg (fst r)) = None ->
      snd (EtcdV3.Get kvserver.client (GenericStore.Stg (fst r)) key) = Ok bs).
Proof.
  intros Hkey Hc Hh Hn He Hok r. subst r.
  rewrite (UpdateNodes_checked _ codec s key nodes p o old Hkey Hc Hh Hn), He. simpl.
  exact (server_Get_after_Update (GenericStore.Stg s) key bs Hok).
Qed.

Lemma UpdateNodes_persisted_witness :
  snd (GenericStore.UpdateNodes fixture.backend fixture.codec
         (fixture.caching (fixture.with_Fields fixture.route "{}") [])
         "/apisix/routes/1" [ fixture.node ])
  = None.
Proof.
  refine (proj1 (UpdateNodes_persisted "add" "delete" fixture.validate fixture.codec
                   (fixture.caching (fixture.with_Fields fixture.route "{}") [])
                   "/apisix/routes/1" [ fixture.node ] 0%nat
                   (fixture.with_Fields fixture.route "{}") [] "{}" _ _ _ _ _ _));
    [discriminate | reflexivity | reflexivity | reflexivity | reflexivity | reflexivity].
Defined.

(** ** The tracked cancellation *)

(** X17.  The store tracks one cancel function, that of the latest
    [Watch].  After two [Watch] calls, [Unwatch] cancels the context of the
    second and leaves the first subscription running; further [Unwatch]
    calls change nothing.  [Unwatch] on a store that never watched calls a
    nil function and panics.  None of this touches the cache. *)
Theorem Unwatch_cancels_latest_only {S : Type} (stg : GenericStore.Interface.t S)
    (w : watching.t S) (st : GenericStore.t S) :
  let w2 := fst (watching.Watch stg (fst (watching.Watch stg w))) in
  (exists w3,
     watching.Unwatch w2 = Ok w3
     /\ watching.contexts w3 = watching.contexts w ++ [ false; true ]
     /\ watching.Unwatch w3 = Ok w3
     /\ GenericStore.cache (watching.store w3) = GenericStore.cache (watching.store w))
  /\ watching.Unwatch (watching.fresh st) = Panic.
Proof.
  intros w2. split; [|reflexivity]. subst w2.
  unfold watching.Watch, watching.Unwatch. simpl.
  assert (Hins : <[length (watching.contexts w ++ [ false ]) := true]>
                   ((watching.contexts w ++ [ false ]) ++ [ false ])
                 = watching.contexts w ++ [ false; true ]).
  { rewrite insert_app_r_alt by lia. rewrite Nat.sub_diag. simpl.
    by rewrite <- app_assoc. }
  eexists. split; [reflexivity|]. simpl. rewrite Hins.
  split; [reflexivity|]. split; [|reflexivity].
  f_equal. f_equal.
  rewrite length_app. simpl.
  rewrite insert_app_r_alt by lia.
  replace (length (watching.contexts w) + 1 - length (watching.contexts w))%nat
    with 1%nat by lia.
  reflexivity.
Qed.

(** ** Construction of the adapter *)

(** X18.  [NewEtcd] reads the certificate files only when the TLS section
    is present with verification on: otherwise its result does not depend
    on the certificate loader and the connection has no TLS configuration.
    The adapter it returns never has a zero call timeout (ten seconds stand
    in for zero), while the dial and keep-alive timeouts of the connection
    keep the configured value, zero included. *)
Theorem NewEtcd_timeout_and_TLS {S TLSConfig : Type}
    (ClientConfig ClientConfig' : transport.TLSInfo -> error + TLSConfig)
    (New : list string -> Z -> Z -> string -> string -> option TLSConfig -> error + S)
    (c : conf.Etcd) :
  ((forall t, conf.TLS_ c = Some t -> conf.Verify t = false) ->
   connect.NewEtcd ClientConfig New c = connect.NewEtcd ClientConfig' New c)
  /\ (forall e,
        connect.NewEtcd ClientConfig New c = inr e ->
        connect.timeout e <> 0%Z
        /\ connect.timeout e
           = (if (conf.Timeout c =? 0)%Z then 10 * connect.Second else conf.Timeout c)%Z
        /\ connect.DialTimeout (connect.conf e) = conf.Timeout c
        /\ connect.DialKeepAliveTimeout (connect.conf e) = conf.Timeout c
        /\ (connect.TLS (connect.conf e) = None
            <-> forall t, conf.TLS_ c = Some t -> conf.Verify t = false)).
Proof.
  unfold connect.NewEtcd. split.
  - intros Hoff. destruct (conf.TLS_ c) as [t|]; [|reflexivity].
    by rewrite (Hoff t eq_refl).
  - intros e.
    assert (Htimeout : (if (conf.Timeout c =? 0)%Z then 10 * connect.Second
                        else conf.Timeout c)%Z <> 0%Z).
    { destruct (conf.Timeout c =? 0)%Z eqn:Hz; [discriminate|]. by apply Z.eqb_neq. }
    destruct (conf.TLS_ c) as [t|].
    + destruct (conf.Verify t) eqn:Hv.
      * destruct (ClientConfig _) as [err|tlsConf]; [discriminate|]. simpl.
        destruct (New _ _ _ _ _ _) as [err|cli]; [discriminate|].
        intros [= <-]. simpl.
        split; [exact Htimeout|]. do 3 (split; [reflexivity|]).
        split; [discriminate|]. intros H. specialize (H t eq_refl). congruence.
      * simpl. destruct (New _ _ _ _ _ _) as [err|cli]; [discriminate|].
        intros [= <-]. simpl.
        split; [exact Htimeout|]. do 3 (split; [reflexivity|]).
        split; [|reflexivity]. intros _ t' [= <-]. exact Hv.
    + simpl. destruct (New _ _ _ _ _ _) as [err|cli]; [discriminate|].
      intros [= <-]. simpl.
      split; [exact Htimeout|]. do 3 (split; [reflexivity|]).
      split; [|reflexivity]. intros _ t' H. discriminate.
Qed.

Lemma NewEtcd_timeout_and_TLS_witness :
  exists e,
    connect.NewEtcd sample.no_cert sample.dial sample.etcd_conf = inr e
    /\ connect.timeout e = 10000000000%Z
    /\ connect.DialTimeout (connect.conf e) = 0%Z.
Proof.
  eexists. split; [reflexivity|].
  destruct (proj2 (NewEtcd_timeout_and_TLS sample.no_cert sample.no_cert sample.dial
                     sample.etcd_conf) _ eq_refl) as (_ & Ht & Hd & _).
  split; [exact Ht | exact Hd].
Defined.
